(** * quote_generator: the quote store and its formatter

    A shallow embedding of [src/quote_generator.py] (class [QuoteGenerator])
    and the properties of its load, query and format operations.

    Modelling conventions.
    - A Python [str] is a [string]; non-ASCII text is its UTF-8 bytes, whose
      bytewise order is the code point order Python compares by.  The case
      operations [str.lower] and [str.capitalize] are modelled on the ASCII
      letters, bytes above 127 are left as they are.
    - A quote record is a Python dict from str to str: [gmap string string].
    - [random.choice] draws an index; the draw is an explicit argument.
    - Exceptions are values of [exn], carried by [result]; a method that
      reads or writes the instance is a program on its state ([Py]), the
      records being objects behind references (module [Heap]).
    - [main] is a machine on the keys typed by the user, writing a list of
      events (module [Cli]). *)

From stdpp Require Import gmap strings list sorting pretty.
From Stdlib Require Import Ascii ZArith Lia.

Local Open Scope stdpp_scope.

(** ** Python strings *)

Module Str.

Definition nl : string := String "010"%char EmptyString.
Definition dquote : string := String "034"%char EmptyString.

Definition is_upper (a : ascii) : bool :=
  (65 <=? nat_of_ascii a)%nat && (nat_of_ascii a <=? 90)%nat.
Definition is_lower (a : ascii) : bool :=
  (97 <=? nat_of_ascii a)%nat && (nat_of_ascii a <=? 122)%nat.

Definition lower_char (a : ascii) : ascii :=
  if is_upper a then ascii_of_nat (nat_of_ascii a + 32) else a.
Definition upper_char (a : ascii) : ascii :=
  if is_lower a then ascii_of_nat (nat_of_ascii a - 32) else a.

(** [s.lower()] *)
Fixpoint lower (s : string) : string :=
  match s with
  | EmptyString => EmptyString
  | String a s' => String (lower_char a) (lower s')
  end.

(** [s.capitalize()]: the first character in upper case, all the others
    in lower case. *)
Definition capitalize (s : string) : string :=
  match s with
  | EmptyString => EmptyString
  | String a s' => String (upper_char a) (lower s')
  end.

(** Only the first character put in upper case, the others kept. *)
Definition upper_first (s : string) : string :=
  match s with
  | EmptyString => EmptyString
  | String a s' => String (upper_char a) s'
  end.

(** [needle in hay] *)
Fixpoint contains (needle hay : string) : bool :=
  String.prefix needle hay ||
  match hay with
  | EmptyString => false
  | String _ hay' => contains needle hay'
  end.

(** [a.lower() == b.lower()] *)
Definition eq_nocase (a b : string) : Prop := lower a = lower b.

#[global] Instance eq_nocase_dec a b : Decision (eq_nocase a b).
Proof. unfold eq_nocase. apply _. Defined.

End Str.

(** ** Exceptions and results *)

Inductive exn :=
| FileNotFoundError (msg : string)
| JSONDecodeError (msg doc : string) (pos : Z)
| AttributeError (msg : string)
| IndexError (msg : string)
| NotADirectoryError (msg : string)
| PermissionError (msg : string)
| IsADirectoryError (msg : string)
| OSError (msg : string)
| UnicodeDecodeError (msg : string)
| UnicodeEncodeError (msg : string)
| BrokenPipeError (msg : string).

Inductive result (A : Type) :=
| Ok (a : A)
| Raise (e : exn).
Arguments Ok {A} a.
Arguments Raise {A} e.

Definition rbind {A B} (m : result A) (k : A → result B) : result B :=
  match m with
  | Ok a => k a
  | Raise e => Raise e
  end.

Definition rmap {A B} (f : A → B) (m : result A) : result B :=
  rbind m (λ a, Ok (f a)).

Notation "x ←ᵣ m ; k" := (rbind m (λ x, k))
  (at level 20, m at level 100, k at level 200, only parsing).

(** ** Methods

    A method runs on a state and ends with a value or with an exception;
    the state it has reached is kept in both cases, so that a write made
    before a [raise] stays made. *)

Definition Py (S A : Type) : Type := S → result A * S.

Definition pret {S A} (a : A) : Py S A := λ σ, (Ok a, σ).

Definition pbind {S A B} (m : Py S A) (k : A → Py S B) : Py S B :=
  λ σ, match m σ with
       | (Ok a, σ') => k a σ'
       | (Raise e, σ') => (Raise e, σ')
       end.

(** A computation that does not touch the state. *)
Definition plift {S A} (r : result A) : Py S A := λ σ, (r, σ).

(** Reading and writing the state. *)
Definition pgets {S A} (f : S → A) : Py S A := λ σ, (Ok (f σ), σ).
Definition pmodify {S} (f : S → S) : Py S unit := λ σ, (Ok tt, f σ).

Notation "x ←ₚ m ; k" := (pbind m (λ x, k))
  (at level 20, m at level 100, k at level 200, only parsing).

(** ** The random source *)

(** [_randbelow(n)] for a draw [r]: a number below [n]. *)
Definition randbelow (r n : nat) : nat := r `mod` n.

(** [random.choice(seq)] *)
Definition random_choice {A} (r : nat) (seq : list A) : result A :=
  if decide (length seq = 0) then
    Raise (IndexError "Cannot choose from an empty sequence")
  else
    match seq !! randbelow r (length seq) with
    | Some x => Ok x
    | None => Raise (IndexError "list index out of range")
    end.

(** ** Quote records and the queries *)

Abbreviation quote := (gmap string string).

(** [d.get(key, dflt)] *)
Definition dict_get (d : quote) (key dflt : string) : string :=
  default dflt (d !! key).

(** [sorted(xs)] on strings. *)
Definition sorted (xs : list string) : list string :=
  merge_sort String.le xs.

(** The condition of the comprehension in [get_quote_by_category]. *)
Definition category_matches (category : string) (q : quote) : Prop :=
  Str.lower (dict_get q "category" EmptyString) = Str.lower category.

#[global] Instance category_matches_dec category q :
  Decision (category_matches category q).
Proof. unfold category_matches. apply _. Defined.

Definition get_random_quote (r : nat) (quotes : list quote)
  : result (option quote) :=
  match quotes with
  | [] => Ok None
  | _ => rmap Some (random_choice r quotes)
  end.

Definition get_quote_by_category (r : nat) (quotes : list quote)
    (category : string) : result (option quote) :=
  let filtered_quotes := filter (category_matches category) quotes in
  match filtered_quotes with
  | [] => Ok None
  | _ => rmap Some (random_choice r filtered_quotes)
  end.

Definition get_all_categories (quotes : list quote) : list string :=
  let categories : gset string :=
    list_to_set ((λ q, dict_get q "category" "unknown") <$> quotes) in
  sorted (elements categories).

(** [not quote] for an optional dict: true of [None] and of the empty dict. *)
Definition falsy (quote : option quote) : bool :=
  match quote with
  | None => true
  | Some q => bool_decide (size q = 0)
  end.

Definition format_quote (quote : option quote) : string :=
  if falsy quote then "No quote available."
  else
    let q := default ∅ quote in
    let text := dict_get q "text" "Unknown quote" in
    let author := dict_get q "author" "Unknown" in
    let category := dict_get q "category" "unknown" in
    Str.nl +:+ Str.dquote +:+ text +:+ Str.dquote +:+ Str.nl +:+
    Str.nl +:+
    "— " +:+ author +:+ Str.nl +:+
    "[" +:+ Str.capitalize category +:+ "]" +:+ Str.nl.

(** ** Documents and loading *)

#[local] Set Warnings "-register-all".

(** What [json.load] builds: the Python values of a JSON document.  A float
    is kept as mantissa and binary exponent. *)
Inductive pyval :=
| PNone
| PBool (b : bool)
| PInt (n : Z)
| PFloat (m e : Z)
| PStr (s : string)
| PList (l : list pyval)
| PDict (d : gmap string pyval).

(** [type(v).__name__] *)
Definition type_name (v : pyval) : string :=
  match v with
  | PNone => "NoneType"
  | PBool _ => "bool"
  | PInt _ => "int"
  | PFloat _ _ => "float"
  | PStr _ => "str"
  | PList _ => "list"
  | PDict _ => "dict"
  end.

(** [bool(v)] *)
Definition truthy (v : pyval) : bool :=
  match v with
  | PNone => false
  | PBool b => b
  | PInt n => negb (n =? 0)%Z
  | PFloat m _ => negb (m =? 0)%Z
  | PStr s => negb (bool_decide (s = EmptyString))
  | PList l => negb (bool_decide (l = []))
  | PDict d => negb (bool_decide (size d = 0))
  end.

(** [data.get(key, dflt)]: only a dict has the method. *)
Definition py_get (data : pyval) (key : string) (dflt : pyval) : result pyval :=
  match data with
  | PDict d => Ok (default dflt (d !! key))
  | _ => Raise (AttributeError
           ("'" +:+ type_name data +:+ "' object has no attribute 'get'"))
  end.

(** Why a path that is not simply missing cannot be read: a component of
    the path is not a directory, the permissions, the path is a directory,
    or another error of the operating system, at [open] or while reading. *)
Inductive refusal :=
| NotADirectory
| PermissionDenied
| IsADirectory
| OtherError (msg : string).

(** What a path stands for, as [open] and [json.load] meet it: a text that
    decodes to a value, a text on which the decoder raises its error
    (message, document, position), bytes that are not UTF-8, or a path that
    [open] refuses.  A path absent from the file system is the case ENOENT
    of [open]: no file of that name, or a directory missing on the way. *)
Inductive file :=
| Decodes (v : pyval)
| Malformed (msg doc : string) (pos : Z)
| NotUtf8 (msg : string)
| Refused (why : refusal).

Abbreviation filesystem := (gmap string file).

(** The exception of a refused [open]. *)
Definition refusal_error (path : string) (why : refusal) : exn :=
  match why with
  | NotADirectory =>
      NotADirectoryError ("[Errno 20] Not a directory: '" +:+ path +:+ "'")
  | PermissionDenied =>
      PermissionError ("[Errno 13] Permission denied: '" +:+ path +:+ "'")
  | IsADirectory =>
      IsADirectoryError ("[Errno 21] Is a directory: '" +:+ path +:+ "'")
  | OtherError msg => OSError msg
  end.

(** [open(path, 'r', encoding='utf-8')] *)
Definition open (fs : filesystem) (path : string) : result file :=
  match fs !! path with
  | None => Raise (FileNotFoundError
              ("[Errno 2] No such file or directory: '" +:+ path +:+ "'"))
  | Some (Refused why) => Raise (refusal_error path why)
  | Some f => Ok f
  end.

(** [json.load(file)]: it reads the text, which fails on bytes that are
    not UTF-8, then decodes it.  A refused path is never opened, its case
    is not reached. *)
Definition json_load (f : file) : result pyval :=
  match f with
  | Decodes v => Ok v
  | Malformed msg doc pos => Raise (JSONDecodeError msg doc pos)
  | NotUtf8 msg => Raise (UnicodeDecodeError msg)
  | Refused _ => Raise (OSError "file not open")
  end.


(** The instance: its two attributes.  [Q] is the type of [self.quotes]:
    [pyval] as loaded from an arbitrary document, [list quote] for the
    collection the queries are typed for. *)
Record QuoteGenerator (Q : Type) := mkQuoteGenerator {
  quotes_file : string;
  quotes : Q;
}.
Arguments mkQuoteGenerator {Q} _ _.
Arguments quotes_file {Q} _.
Arguments quotes {Q} _.

(** Lines printed on standard output. *)
Abbreviation stdout := (list string).

(** The state of a construction: the instance being built and what has
    been printed. *)
Abbreviation loading := (QuoteGenerator pyval * stdout)%type.

(** [self.quotes = q] *)
Definition set_quotes (q : pyval) : Py loading unit :=
  pmodify (λ σ : loading, (mkQuoteGenerator (quotes_file σ.1) q, σ.2)).

(** [print(s)] *)
Definition print (s : string) : Py loading unit :=
  pmodify (λ σ : loading, (σ.1, σ.2 ++ [s])).

(** The body of the [try] of [load_quotes]. *)
Definition load_quotes_try (fs : filesystem) : Py loading unit :=
  path ←ₚ pgets (λ σ : loading, quotes_file σ.1);
  f ←ₚ plift (open fs path);
  data ←ₚ plift (json_load f);
  q ←ₚ plift (py_get data "quotes" (PList []));
  _ ←ₚ set_quotes q;
  self_quotes ←ₚ pgets (λ σ : loading, quotes σ.1);
  if truthy self_quotes then pret tt
  else print "Warning: No quotes found in the file.".

(** [load_quotes]: the two [except] clauses raise anew, any other exception
    passes. *)
Definition load_quotes (fs : filesystem) : Py loading unit :=
  λ σ, match load_quotes_try fs σ with
       | (Raise (FileNotFoundError _), σ') =>
           (Raise (FileNotFoundError
              ("Quotes file not found: " +:+ quotes_file σ'.1 +:+
               "Please ensure the data/quotes.json file exists.")), σ')
       | (Raise (JSONDecodeError msg doc pos), σ') =>
           (Raise (JSONDecodeError ("Invalid JSON in quotes file: " +:+ msg)
                     doc pos), σ')
       | r => r
       end.

(** [Path(__file__).parent.parent / data / quotes.json] *)
Definition default_quotes_file (project_root : string) : string :=
  project_root +:+ "/data/quotes.json".

(** The path [__init__] keeps: the argument, or the default one when the
    argument is None. *)
Definition quotes_path (project_root : string) (quotes_file : option string)
  : string :=
  default (default_quotes_file project_root) quotes_file.

(** [__init__] up to the call of [load_quotes]: the two attributes set,
    nothing printed; [project_root] is where the module is installed. *)
Definition init_self (project_root : string) (quotes_file : option string)
  : loading :=
  (mkQuoteGenerator (quotes_path project_root quotes_file) (PList []), []).

(** The call [QuoteGenerator(quotes_file)]: it gives the instance when
    [__init__] returns, and raises what [__init__] raises. *)
Definition init (project_root : string) (fs : filesystem)
    (quotes_file : option string) : result (QuoteGenerator pyval * stdout) :=
  match load_quotes fs (init_self project_root quotes_file) with
  | (Ok _, σ) => Ok σ
  | (Raise e, _) => Raise e
  end.

(** A collection of records as the Python value it is. *)
Definition of_quote (q : quote) : pyval := PDict (PStr <$> q).
Definition of_quotes (qs : list quote) : pyval := PList (of_quote <$> qs).


(** ** The methods on the instance and its objects

    In Python the records are dict objects and [self.quotes] is a list of
    references to them: a query returns a reference to the stored object,
    not a copy.  The state is the objects by address and the attribute
    [self.quotes]; the methods are programs on it, each read of the source
    a read of the state.  The writes are the two a Python program has on
    such a state; the four methods use none, the caller of the second
    lemma below does. *)

Module Heap.

Record state := mkState {
  objects : nat → quote;
  self_quotes : list nat;
}.

(** The collection as values: the records the references lead to. *)
Definition records (σ : state) : list quote := objects σ <$> self_quotes σ.

(** [self.quotes] *)
Definition attr_quotes : Py state (list nat) := pgets self_quotes.

(** [self.quotes = qs] *)
Definition set_attr_quotes (qs : list nat) : Py state unit :=
  pmodify (λ σ, mkState (objects σ) qs).

(** [quote.get(key, dflt)] on the object at [l] *)
Definition get_at (l : nat) (key dflt : string) : Py state string :=
  pgets (λ σ, dict_get (objects σ l) key dflt).

(** [len(quote)], which decides [not quote] *)
Definition len_at (l : nat) : Py state nat :=
  pgets (λ σ, size (objects σ l)).

(** [quote[key] = v] on the object at [l] *)
Definition setitem_at (l : nat) (key v : string) : Py state unit :=
  pmodify (λ σ, mkState (λ l', if decide (l' = l)
                                then <[key := v]> (objects σ l)
                                else objects σ l')
                        (self_quotes σ)).

Definition get_random_quote (r : nat) : Py state (option nat) :=
  quotes ←ₚ attr_quotes;
  match quotes with
  | [] => pret None
  | _ =>
      quotes' ←ₚ attr_quotes;
      quote ←ₚ plift (random_choice r quotes');
      pret (Some quote)
  end.

(** The comprehension of [get_quote_by_category]: one [get] on each
    object, in order. *)
Fixpoint filter_category (category : string) (quotes : list nat)
  : Py state (list nat) :=
  match quotes with
  | [] => pret []
  | quote :: quotes' =>
      c ←ₚ get_at quote "category" EmptyString;
      rest ←ₚ filter_category category quotes';
      pret (if decide (Str.lower c = Str.lower category)
            then quote :: rest else rest)
  end.

Definition get_quote_by_category (r : nat) (category : string)
  : Py state (option nat) :=
  quotes ←ₚ attr_quotes;
  filtered_quotes ←ₚ filter_category category quotes;
  match filtered_quotes with
  | [] => pret None
  | _ =>
      quote ←ₚ plift (random_choice r filtered_quotes);
      pret (Some quote)
  end.

(** The generator of [get_all_categories]. *)
Fixpoint categories_of (quotes : list nat) : Py state (list string) :=
  match quotes with
  | [] => pret []
  | quote :: quotes' =>
      c ←ₚ get_at quote "category" "unknown";
      rest ←ₚ categories_of quotes';
      pret (c :: rest)
  end.

Definition get_all_categories : Py state (list string) :=
  quotes ←ₚ attr_quotes;
  cs ←ₚ categories_of quotes;
  let categories : gset string := list_to_set cs in
  pret (sorted (elements categories)).

Definition format_quote (quote : option nat) : Py state string :=
  match quote with
  | None => pret "No quote available."
  | Some l =>
      n ←ₚ len_at l;
      if decide (n = 0) then pret "No quote available."
      else
        text ←ₚ get_at l "text" "Unknown quote";
        author ←ₚ get_at l "author" "Unknown";
        category ←ₚ get_at l "category" "unknown";
        pret (Str.nl +:+ Str.dquote +:+ text +:+ Str.dquote +:+ Str.nl +:+
              Str.nl +:+
              "— " +:+ author +:+ Str.nl +:+
              "[" +:+ Str.capitalize category +:+ "]" +:+ Str.nl)
  end.

(** A call of one of the four operations, and its answer. *)
Inductive call :=
| GetRandomQuote (r : nat)
| GetQuoteByCategory (r : nat) (category : string)
| GetAllCategories
| FormatQuote (quote : option nat).

Inductive reply :=
| Quote (q : option nat)
| Categories (cs : list string)
| Text (s : string).

Definition exec (c : call) : Py state reply :=
  match c with
  | GetRandomQuote r => q ←ₚ get_random_quote r; pret (Quote q)
  | GetQuoteByCategory r category =>
      q ←ₚ get_quote_by_category r category; pret (Quote q)
  | GetAllCategories => cs ←ₚ get_all_categories; pret (Categories cs)
  | FormatQuote quote => s ←ₚ format_quote quote; pret (Text s)
  end.

(** A sequence of calls, each on the state the one before has left; an
    exception of a call is its answer and the caller goes on. *)
Fixpoint run (cs : list call) (σ : state) : list (result reply) * state :=
  match cs with
  | [] => ([], σ)
  | c :: cs' =>
      let (a, σ') := exec c σ in
      let (al, σ'') := run cs' σ' in
      (a :: al, σ'')
  end.

End Heap.

(** ** The layout the specification words for [format_quote]

    A blank line, the text in double quotes, a blank line, the dash and the
    author, a blank line, the category in brackets with its first letter in
    upper case and the others kept. *)
Definition spec_layout (text author category : string) : string :=
  Str.nl +:+ Str.dquote +:+ text +:+ Str.dquote +:+ Str.nl +:+
  Str.nl +:+
  "— " +:+ author +:+ Str.nl +:+
  Str.nl +:+
  "[" +:+ Str.upper_first category +:+ "]" +:+ Str.nl.

(** ** Sample records

    The records of the unit tests, one without a category, and one whose
    category has a capital inside; the two records of the round trip. *)

Definition q_motivational : quote :=
  {[ "text" := "Test quote 1"; "author" := "Test Author 1";
     "category" := "motivational" ]}.

Definition q_philosophical : quote :=
  {[ "text" := "Test quote 2"; "author" := "Test Author 2";
     "category" := "philosophical" ]}.

Definition q_no_category : quote :=
  {[ "text" := "Test quote 4"; "author" := "Test Author 4" ]}.

Definition q_scifi : quote :=
  {[ "text" := "T"; "author" := "A"; "category" := "sciFi" ]}.

Definition q_AB : quote :=
  {[ "text" := "A"; "author" := "B"; "category" := "motivational" ]}.

Definition q_CD : quote :=
  {[ "text" := "C"; "author" := "D"; "category" := "philosophical" ]}.

(** The category a record is listed under. *)
Definition listed_category (q : quote) : string :=
  dict_get q "category" "unknown".

(** ** The command line: [clear_screen], [display_menu] and [main]

    [main] prints, clears the screen and reads lines.  What it writes is a
    list of events; what the user types is a list of keys, each a line, an
    interrupt (Ctrl-C, raised as KeyboardInterrupt by the pending [input])
    or bytes that [input] cannot decode.  The loop is a machine that waits
    at one of the three [input] calls and moves on each key.  A write may
    fail: [script] is the run while none does, [deliver] cuts it at the
    first that does. *)

Module Cli.

(** Why a write to the standard output fails: the text has a character
    that the encoding of the output lacks, the output is closed, or
    another error of the operating system. *)
Inductive write_failure :=
| CannotEncode
| PipeClosed
| OtherWriteError (msg : string).

(** What the source takes from outside the repository: the platform, the
    directory of the installation, the builtin [int] on strings (None for
    ValueError), the draws of the random source, one per query, and the
    standard output, which accepts or fails the n-th write, of a given
    text. *)
Record world := mkWorld {
  platform_system : string;
  project_root : string;
  py_int : string → option Z;
  rnd : nat → nat;
  stdout_write : nat → string → option write_failure;
}.

(** The exception of a failed write. *)
Definition write_error (f : write_failure) : exn :=
  match f with
  | CannotEncode => UnicodeEncodeError "codec can't encode character"
  | PipeClosed => BrokenPipeError "[Errno 32] Broken pipe"
  | OtherWriteError msg => OSError msg
  end.

(** White space of [str.strip()], on ASCII. *)
Definition is_space (a : ascii) : bool :=
  ((9 <=? nat_of_ascii a)%nat && (nat_of_ascii a <=? 13)%nat) ||
  ((28 <=? nat_of_ascii a)%nat && (nat_of_ascii a <=? 32)%nat).

Fixpoint lstrip (s : string) : string :=
  match s with
  | EmptyString => EmptyString
  | String a s' => if is_space a then lstrip s' else s
  end.

Definition rstrip (s : string) : string := String.rev (lstrip (String.rev s)).

(** [s.strip()] *)
Definition strip (s : string) : string := rstrip (lstrip s).

(** [s * n] *)
Fixpoint times (n : nat) (s : string) : string :=
  match n with
  | 0 => EmptyString
  | S n' => s +:+ times n' s
  end.

(** [l[i]], a negative index counting from the end. *)
Definition list_getitem {A} (l : list A) (i : Z) : result A :=
  let j := if (i <? 0)%Z then (Z.of_nat (length l) + i)%Z else i in
  if (j <? 0)%Z then Raise (IndexError "list index out of range")
  else match l !! Z.to_nat j with
       | Some x => Ok x
       | None => Raise (IndexError "list index out of range")
       end.

Inductive event :=
| Print (s : string)
| Input (prompt : string)
| System (command : string).

(** What an [input] meets: a line, an interrupt, or bytes that the
    standard input cannot decode. *)
Inductive key :=
| Line (s : string)
| Interrupt
| Garbled.

Definition clear_screen (w : world) : list event :=
  if decide (platform_system w = "Windows") then [System "cls"]
  else [System "clear"].

Definition rule : string := times 50 "=".

Definition display_menu : list event :=
  Print <$> [ rule; "  QUOTE GENERATOR"; rule;
              "1. Get a random quote"; "2. Get a quote by category";
              "3. View all categories"; "4. Exit"; rule ].

(** The count shown beside a category by choice 3:
    [sum(1 for q in generator.quotes if q.get('category') == cat)]. *)
Definition category_count (quotes : list quote) (cat : string) : nat :=
  length (filter (λ q, q !! "category" = Some cat) quotes).

(** The inner [try] of choice 2: the selected category, if any, and what
    is printed. *)
Definition select_category (w : world) (categories : list string)
    (cat_input : string) : result (option string * list event) :=
  match py_int w cat_input with
  | Some cat_number =>
      if (1 <=? cat_number)%Z &&
         (cat_number <=? Z.of_nat (length categories))%Z
      then c ←ᵣ list_getitem categories (cat_number - 1); Ok (Some c, [])
      else Ok (None,
               [Print ("Invalid number. Please enter a number between 1 and "
                       +:+ pretty (length categories) +:+ ".")])
  | None => Ok (Some cat_input, [])
  end.

(** Where the loop waits, or how [main] has ended. *)
Inductive point :=
| AtChoice
| AtCategory (categories : list string)
| AtContinue
| Returned (code : Z)
| Raised (e : exn).

Definition ask_choice : list event :=
  display_menu ++ [Input (Str.nl +:+ "Enter your choice (1-4): ")].

Definition ask_continue : list event :=
  [Input (Str.nl +:+ "Press Enter to continue...")].

(** The branches of the menu, up to the next [input]; [n] counts the
    queries made so far. *)
Definition on_choice (w : world) (quotes : list quote) (n : nat)
    (choice : string) : list event * point * nat :=
  if decide (choice = "1") then
    match get_random_quote (rnd w n) quotes with
    | Ok quote =>
        (clear_screen w ++ [Print (format_quote quote)] ++ ask_continue,
         AtContinue, S n)
    | Raise e => (clear_screen w, Raised e, S n)
    end
  else if decide (choice = "2") then
    let categories := get_all_categories quotes in
    (clear_screen w ++ [Print "Available categories: "] ++
     imap (λ i cat, Print ("  " +:+ pretty (S i) +:+ ". " +:+
                           Str.capitalize cat)) categories ++
     [Input "Enter category number or name: "],
     AtCategory categories, n)
  else if decide (choice = "3") then
    let categories := get_all_categories quotes in
    (clear_screen w ++ [Print "Available categories:"] ++
     ((λ cat, Print ("  • " +:+ Str.capitalize cat +:+ " (" +:+
                     pretty (category_count quotes cat) +:+ " quotes)"))
        <$> categories) ++
     ask_continue,
     AtContinue, n)
  else if decide (choice = "4") then
    (clear_screen w ++
     [Print ("Thanks for using Quote Generator! Stay inspired!" +:+
             Str.nl +:+ Str.nl)],
     Returned 0, n)
  else
    (clear_screen w ++
     [Print "Invalid choice. Please enter a number between 1 and 4."] ++
     ask_continue,
     AtContinue, n).

(** Choice 2 after its [input]. *)
Definition on_category (w : world) (quotes : list quote) (n : nat)
    (categories : list string) (cat_input : string)
  : list event * point * nat :=
  match select_category w categories cat_input with
  | Raise e => ([], Raised e, n)
  | Ok (selected_category, said) =>
      match selected_category with
      | Some c =>
          if decide (c = EmptyString) then (said ++ ask_continue, AtContinue, n)
          else
            match get_quote_by_category (rnd w n) quotes c with
            | Ok quote =>
                (said ++ clear_screen w ++
                 [Print (if falsy quote
                         then "No quotes found for category: " +:+ c
                         else format_quote quote)] ++
                 ask_continue,
                 AtContinue, S n)
            | Raise e => (said ++ clear_screen w, Raised e, S n)
            end
      | None => (said ++ ask_continue, AtContinue, n)
      end
  end.

(** One key at a waiting point. *)
Definition step (w : world) (quotes : list quote) (p : point) (n : nat)
    (k : key) : list event * point * nat :=
  match p, k with
  | Returned _, _ | Raised _, _ => ([], p, n)
  | _, Interrupt => ([Print "Goodbye!"], Returned 0, n)
  | _, Garbled =>
      ([], Raised (UnicodeDecodeError "codec can't decode byte"), n)
  | AtChoice, Line l => on_choice w quotes n (strip l)
  | AtCategory categories, Line l => on_category w quotes n categories (strip l)
  | AtContinue, Line _ => (clear_screen w ++ ask_choice, AtChoice, n)
  end.

Fixpoint run (w : world) (quotes : list quote) (p : point) (n : nat)
    (keys : list key) : list event * point :=
  match keys with
  | [] => ([], p)
  | k :: keys' =>
      let '(ev, p', n') := step w quotes p n k in
      let (ev', p'') := run w quotes p' n' keys' in
      (ev ++ ev', p'')
  end.

(** How a run of [main] ends: a returned code, an exception that leaves
    [main], the end of the input (the EOFError of [input], not caught), or
    a loaded value that is not a list of records of strings, on which the
    typed queries say nothing. *)
Inductive outcome :=
| Exit (code : Z)
| Uncaught (e : exn)
| EndOfInput
| Untyped.

Definition outcome_of (p : point) : outcome :=
  match p with
  | Returned code => Exit code
  | Raised e => Uncaught e
  | _ => EndOfInput
  end.

(** The points a session on records reaches: one of the three waits, or
    the return with code 0. *)
Definition sound (p : point) : Prop :=
  match p with
  | Returned code => code = 0%Z
  | Raised _ => False
  | _ => True
  end.

(** The same, or the exception of an [input] that cannot decode its
    bytes. *)
Definition settled (p : point) : Prop :=
  match p with
  | Returned code => code = 0%Z
  | Raised (UnicodeDecodeError _) => True
  | Raised _ => False
  | _ => True
  end.

(** [main] from [clear_screen()] on, the instance built, as long as every
    write succeeds. *)
Definition session (w : world) (quotes : list quote) (keys : list key)
  : list event * outcome :=
  let (ev, p) := run w quotes AtChoice 0 keys in
  (clear_screen w ++
   [Print "Welcome to Quote Generator!";
    Print ("Loaded " +:+ pretty (length quotes) +:+ " quotes." +:+ Str.nl)] ++
   ask_choice ++ ev,
   outcome_of p).

Definition str_of (v : pyval) : option string :=
  match v with
  | PStr s => Some s
  | _ => None
  end.

Definition record_of (v : pyval) : option quote :=
  match v with
  | PDict d =>
      if decide (map_Forall (λ _ x, is_Some (str_of x)) d)
      then Some (omap str_of d) else None
  | _ => None
  end.

(** The loaded value as a collection of records, when it is one. *)
Definition records (v : pyval) : option (list quote) :=
  match v with
  | PList l => mapM record_of l
  | _ => None
  end.

(** [main] as long as every write succeeds: what it prints and asks, and
    how it ends. *)
Definition script (w : world) (fs : filesystem) (keys : list key)
  : list event * outcome :=
  match init (project_root w) fs None with
  | Raise (FileNotFoundError msg) => ([Print ("Error: " +:+ msg)], Exit 1)
  | Raise (JSONDecodeError _ _ _) =>
      ([Print "Error: Invalid JSON format in quotes file."], Exit 1)
  | Raise e => ([], Uncaught e)
  | Ok (generator, out) =>
      match records (quotes generator) with
      | Some qs =>
          let (ev, o) := session w qs keys in ((Print <$> out) ++ ev, o)
      | None => (Print <$> out, Untyped)
      end
  end.

(** The standard output at work: the [n]-th write and the following ones.
    The first write that fails raises in [print] or [input]; none of the
    [except] clauses of [main] and [load_quotes] is for its exception,
    which leaves [main], and nothing after it happens. *)
Fixpoint deliver (w : world) (n : nat) (events : list event) (o : outcome)
  : list event * outcome :=
  match events with
  | [] => ([], o)
  | System c :: events' =>
      let (done, o') := deliver w n events' o in (System c :: done, o')
  | Print s :: events' =>
      match stdout_write w n s with
      | Some f => ([], Uncaught (write_error f))
      | None =>
          let (done, o') := deliver w (S n) events' o in (Print s :: done, o')
      end
  | Input s :: events' =>
      match stdout_write w n s with
      | Some f => ([], Uncaught (write_error f))
      | None =>
          let (done, o') := deliver w (S n) events' o in (Input s :: done, o')
      end
  end.

Definition main (w : world) (fs : filesystem) (keys : list key)
  : list event * outcome :=
  let (events, o) := script w fs keys in deliver w 0 events o.

(** An [int] to run the model with: the decimal numerals with an optional
    sign, a part of what the builtin reads. *)
Fixpoint digits_value (acc : Z) (s : string) : option Z :=
  match s with
  | EmptyString => Some acc
  | String a s' =>
      match Ascii.is_nat a with
      | Some d => digits_value (10 * acc + Z.of_nat d) s'
      | None => None
      end
  end.

Definition int_decimal (s : string) : option Z :=
  match s with
  | EmptyString => None
  | String "-" (String a s') => Z.opp <$> digits_value 0 (String a s')
  | String "+" (String a s') => digits_value 0 (String a s')
  | _ => digits_value 0 s
  end.

Definition posix : world :=
  mkWorld "Linux" "/app" int_decimal (λ n, n) (λ _ _, None).

(** The same with an output restricted to ASCII. *)
Fixpoint is_ascii (s : string) : bool :=
  match s with
  | EmptyString => true
  | String a s' => (nat_of_ascii a <? 128)%nat && is_ascii s'
  end.

Definition posix_ascii : world :=
  mkWorld "Linux" "/app" int_decimal (λ n, n)
          (λ _ s, if is_ascii s then None else Some CannotEncode).

End Cli.

(** The two ends of a session in which nothing raises. *)
Definition ends_quietly (o : Cli.outcome) : Prop :=
  o = Cli.Exit 0 ∨ o = Cli.EndOfInput.


(** * Properties *)

(** ** The scenarios of the tests, run on the model *)

Example format_none : format_quote None = "No quote available.".
Proof. reflexivity. Qed.

Example roundtrip_scenario :
  get_all_categories [q_AB; q_CD] = ["motivational"; "philosophical"] ∧
  (∀ r, get_quote_by_category r [q_AB; q_CD] "PHILOSOPHICAL"
          = Ok (Some q_CD)) ∧
  Str.contains (Str.dquote +:+ "C" +:+ Str.dquote)
    (format_quote (Some q_CD)) = true ∧
  Str.contains "— D" (format_quote (Some q_CD)) = true ∧
  Str.contains "[Philosophical]" (format_quote (Some q_CD)) = true.
Proof.
  split; [by vm_compute|]. split; [|by vm_compute].
  intros r. change (get_quote_by_category r [q_AB; q_CD] "PHILOSOPHICAL")
    with (rmap Some (random_choice r [q_CD])).
  unfold random_choice, randbelow. change (length [q_CD]) with 1.
  by rewrite Nat.mod_1_r.
Qed.

Example load_three_records :
  init "/app"
    {[ "quotes.json" := Decodes (PDict
         {[ "quotes" := of_quotes [q_motivational; q_philosophical] ]}) ]}
    (Some "quotes.json")
  = Ok (mkQuoteGenerator "quotes.json"
          (of_quotes [q_motivational; q_philosophical]), []).
Proof. by vm_compute. Qed.

(** ** Strings *)

Lemma lower_empty_iff s : Str.lower s = EmptyString ↔ s = EmptyString.
Proof. destruct s; simpl; split; congruence. Qed.

(** ** The random choice *)

Lemma randbelow_lt r n : 0 < n → randbelow r n < n.
Proof. intros Hn. unfold randbelow. apply Nat.mod_upper_bound. lia. Qed.

Lemma randbelow_small r n : r < n → randbelow r n = r.
Proof. intros Hr. unfold randbelow. by apply Nat.mod_small. Qed.

Lemma random_choice_elem {A} r (seq : list A) :
  seq ≠ [] → ∃ x, random_choice r seq = Ok x ∧ x ∈ seq.
Proof.
  intros Hne. unfold random_choice.
  destruct (decide (length seq = 0)) as [H0|H0].
  { by apply nil_length_inv in H0. }
  destruct (lookup_lt_is_Some_2 seq (randbelow r (length seq))) as [x Hx].
  { apply randbelow_lt. lia. }
  rewrite Hx. exists x. split; [done|]. by eapply list_elem_of_lookup_2.
Qed.

Lemma random_choice_lookup {A} i (seq : list A) x :
  seq !! i = Some x → random_choice i seq = Ok x.
Proof.
  intros Hi. pose proof (lookup_lt_Some _ _ _ Hi) as Hlt.
  unfold random_choice. destruct (decide (length seq = 0)); [lia|].
  by rewrite randbelow_small, Hi.
Qed.

Lemma random_choice_reach {A} (seq : list A) x :
  x ∈ seq → ∃ r, random_choice r seq = Ok x.
Proof.
  intros [i Hi]%list_elem_of_lookup_1. exists i. by apply random_choice_lookup.
Qed.

(** The guarded choice of the two selecting queries. *)
Lemma guarded_choice_nil {A} r (seq : list A) :
  match seq with [] => Ok None | _ => rmap Some (random_choice r seq) end
    = Ok None ↔ seq = [].
Proof.
  split; [|by intros ->].
  destruct seq as [|x l]; [done|]. intros H.
  destruct (random_choice_elem r (x :: l)) as (y & Hy & _); [done|].
  rewrite Hy in H. discriminate.
Qed.

Lemma guarded_choice_cons {A} r (seq : list A) :
  seq ≠ [] →
  ∃ x, match seq with [] => Ok None | _ => rmap Some (random_choice r seq) end
         = Ok (Some x) ∧ x ∈ seq.
Proof.
  intros Hne. destruct (random_choice_elem r seq Hne) as (x & Hx & Hin).
  exists x. split; [|done]. destruct seq; [done|]. by rewrite Hx.
Qed.

Lemma guarded_choice_total {A} r (seq : list A) :
  ∃ o, match seq with [] => Ok None | _ => rmap Some (random_choice r seq) end
         = Ok o.
Proof.
  destruct (decide (seq = [])) as [->|Hne]; [by eexists|].
  destruct (guarded_choice_cons r seq Hne) as (x & Hx & _). eauto.
Qed.

(** ** Selecting queries *)

Lemma get_quote_by_category_filtered r quotes c q :
  get_quote_by_category r quotes c = Ok (Some q) →
  q ∈ quotes ∧ category_matches c q.
Proof.
  unfold get_quote_by_category. intros H.
  destruct (decide (filter (category_matches c) quotes = [])) as [E|Hne].
  { rewrite E in H. discriminate. }
  destruct (guarded_choice_cons r _ Hne) as (x & Hx & Hin).
  rewrite Hx in H. injection H as <-.
  apply list_elem_of_filter in Hin. tauto.
Qed.

Lemma filter_nil_iff (c : string) (quotes : list quote) :
  filter (category_matches c) quotes = [] ↔
  ¬ ∃ q, q ∈ quotes ∧ category_matches c q.
Proof.
  split.
  - intros E (q & Hin & Hm).
    assert (q ∈ filter (category_matches c) quotes) as Hf
      by (apply list_elem_of_filter; done).
    rewrite E in Hf. by apply not_elem_of_nil in Hf.
  - intros Hno. destruct (filter _ quotes) as [|q l] eqn:E; [done|].
    exfalso. apply Hno. exists q.
    assert (q ∈ filter (category_matches c) quotes) as Hf
      by (rewrite E; left).
    apply list_elem_of_filter in Hf. tauto.
Qed.

Lemma get_quote_by_category_none r quotes c :
  get_quote_by_category r quotes c = Ok None ↔
  ¬ ∃ q, q ∈ quotes ∧ category_matches c q.
Proof.
  unfold get_quote_by_category. rewrite guarded_choice_nil.
  apply filter_nil_iff.
Qed.

Lemma get_quote_by_category_some r quotes c :
  (∃ q, q ∈ quotes ∧ category_matches c q) →
  ∃ q, get_quote_by_category r quotes c = Ok (Some q).
Proof.
  intros Hex. unfold get_quote_by_category.
  destruct (guarded_choice_cons r (filter (category_matches c) quotes))
    as (x & Hx & _); [|eauto].
  intros E. by apply filter_nil_iff in E.
Qed.

(** C1. [get_quote_by_category] matches the query against each record's
    category without regard to case (a record without the field is read
    with the empty string, the default of the comprehension).  Whenever a
    record matches, the call returns a record of the collection whose
    category equals the query up to case; it returns None exactly when no
    record matches.  A collection holding a record of category motivational
    answers both Motivational and motivational with a record whose category
    is motivational up to case, and with that very category when the record
    is the only one. *)
Theorem get_quote_by_category_case_insensitive
    (r : nat) (quotes : list quote) (c : string) :
  ((∃ q, q ∈ quotes ∧
         Str.eq_nocase (dict_get q "category" EmptyString) c) →
   ∃ q, get_quote_by_category r quotes c = Ok (Some q) ∧ q ∈ quotes ∧
        Str.eq_nocase (dict_get q "category" EmptyString) c) ∧
  (get_quote_by_category r quotes c = Ok None ↔
   ¬ ∃ q, q ∈ quotes ∧
          Str.eq_nocase (dict_get q "category" EmptyString) c) ∧
  (∀ q0, q0 ∈ quotes → q0 !! "category" = Some "motivational" →
     c = "Motivational" ∨ c = "motivational" →
     ∃ q, get_quote_by_category r quotes c = Ok (Some q) ∧ q ∈ quotes ∧
          Str.lower (dict_get q "category" EmptyString) = "motivational" ∧
          (quotes = [q0] → q !! "category" = Some "motivational")).
Proof.
  split; [|split].
  - intros Hex. destruct (get_quote_by_category_some r quotes c Hex) as [q Hq].
    exists q. split; [done|]. by apply get_quote_by_category_filtered in Hq.
  - apply get_quote_by_category_none.
  - intros q0 Hin Hcat Hc.
    assert (category_matches c q0) as Hm.
    { unfold category_matches, dict_get. rewrite Hcat.
      by destruct Hc as [-> | ->]. }
    destruct (get_quote_by_category_some r quotes c) as [q Hq]; [by eauto|].
    exists q. split; [done|].
    destruct (get_quote_by_category_filtered _ _ _ _ Hq) as [Hq1 Hq2].
    split; [done|]. split.
    + unfold category_matches in Hq2. rewrite Hq2.
      by destruct Hc as [-> | ->].
    + intros ->. apply list_elem_of_singleton in Hq1. by subst.
Qed.

Lemma get_quote_by_category_case_insensitive_witness :
  get_quote_by_category 7 [q_motivational] "Motivational"
    = Ok (Some q_motivational).
Proof.
  destruct (get_quote_by_category_case_insensitive 7 [q_motivational]
              "Motivational") as (_ & _ & H).
  destruct (H q_motivational) as (q & Hq & Hin & _).
  - apply list_elem_of_singleton. reflexivity.
  - vm_compute. reflexivity.
  - left. reflexivity.
  - apply list_elem_of_singleton in Hin. rewrite Hin in Hq. exact Hq.
Defined.

(** C5. On a collection of at least one record, [get_random_quote] returns
    a record of the collection whatever the draw, and every record of the
    collection is returned for some draw. *)
Theorem get_random_quote_member_and_reachable (quotes : list quote) :
  1 ≤ length quotes →
  (∀ r, ∃ q, get_random_quote r quotes = Ok (Some q) ∧ q ∈ quotes) ∧
  (∀ q, q ∈ quotes → ∃ r, get_random_quote r quotes = Ok (Some q)).
Proof.
  intros Hlen.
  assert (quotes ≠ []) as Hne by (intros ->; simpl in Hlen; lia).
  split.
  - intros r. apply (guarded_choice_cons r quotes Hne).
  - intros q [r Hr]%random_choice_reach. exists r.
    unfold get_random_quote. destruct quotes; [done|]. by rewrite Hr.
Qed.

Lemma get_random_quote_member_and_reachable_witness :
  1 ≤ length [q_motivational; q_philosophical] ∧
  ∃ r, get_random_quote r [q_motivational; q_philosophical]
         = Ok (Some q_philosophical).
Proof.
  split; [simpl; lia|].
  apply (get_random_quote_member_and_reachable
           [q_motivational; q_philosophical]); [simpl; lia|].
  apply list_elem_of_In. simpl. right. left. reflexivity.
Defined.

(** C6. On the empty collection [get_random_quote] and
    [get_quote_by_category], for any query, return None; and on any
    collection the two queries return a value (a record or None), they
    never raise. *)
Theorem empty_collection_no_result (r : nat) (x : string) :
  get_random_quote r [] = Ok None ∧
  get_quote_by_category r [] x = Ok None ∧
  (∀ quotes : list quote,
     (∃ o, get_random_quote r quotes = Ok o) ∧
     (∃ o, get_quote_by_category r quotes x = Ok o)).
Proof.
  split; [done|]. split; [done|].
  intros quotes. split; apply guarded_choice_total.
Qed.

(** ** The listing of categories *)

Lemma sorted_Permutation xs : sorted xs ≡ₚ xs.
Proof. apply merge_sort_Permutation. Qed.

Lemma sorted_StronglySorted xs : StronglySorted String.le (sorted xs).
Proof. apply (StronglySorted_merge_sort String.le). Qed.

Lemma get_all_categories_Permutation quotes :
  get_all_categories quotes ≡ₚ remove_dups (listed_category <$> quotes).
Proof.
  unfold get_all_categories. rewrite sorted_Permutation.
  apply NoDup_Permutation.
  - apply NoDup_elements.
  - apply NoDup_remove_dups.
  - intros c. rewrite elem_of_elements, elem_of_list_to_set.
    by rewrite elem_of_remove_dups.
Qed.

(** C4. [get_all_categories] lists exactly the category values of the
    collection, unknown standing for an absent field; the list is in
    ascending order (each name is below all the names after it), has no
    duplicates, and is as long as there are distinct such values in the
    collection. *)
Theorem get_all_categories_sorted_distinct (quotes : list quote) :
  (∀ c, c ∈ get_all_categories quotes ↔
        ∃ q, q ∈ quotes ∧ dict_get q "category" "unknown" = c) ∧
  StronglySorted String.le (get_all_categories quotes) ∧
  NoDup (get_all_categories quotes) ∧
  length (get_all_categories quotes)
    = length (remove_dups ((λ q, dict_get q "category" "unknown") <$> quotes)).
Proof.
  pose proof (get_all_categories_Permutation quotes) as HP.
  split; [|split; [|split]].
  - intros c. rewrite HP, elem_of_remove_dups, list_elem_of_fmap.
    unfold listed_category. split.
    + intros (q & -> & Hin). eauto.
    + intros (q & Hin & <-). eauto.
  - apply sorted_StronglySorted.
  - rewrite HP. apply NoDup_remove_dups.
  - by rewrite HP.
Qed.

(** C10. A record without the category field is listed by
    [get_all_categories] under unknown, yet the query unknown does not match
    it and never returns it: matching reads the absent field as the empty
    string, so the record is matched by the empty query only.  On the
    collection made of that record alone, the listed name unknown yields
    None. *)
Theorem listed_unknown_not_matched (quotes : list quote) (q : quote) :
  q ∈ quotes → q !! "category" = None →
  "unknown" ∈ get_all_categories quotes ∧
  ¬ category_matches "unknown" q ∧
  (∀ r, get_quote_by_category r quotes "unknown" ≠ Ok (Some q)) ∧
  (∀ c, category_matches c q ↔ c = EmptyString) ∧
  (∀ r, "unknown" ∈ get_all_categories [q] ∧
        get_quote_by_category r [q] "unknown" = Ok None).
Proof.
  intros Hin Hcat.
  assert (∀ c, category_matches c q ↔ c = EmptyString) as Hm.
  { intros c. unfold category_matches, dict_get. rewrite Hcat. simpl.
    split; [|by intros ->].
    intros H. symmetry in H. by apply lower_empty_iff. }
  assert (∀ qs, q ∈ qs → "unknown" ∈ get_all_categories qs) as Hl.
  { intros qs Hqs. rewrite get_all_categories_Permutation.
    apply elem_of_remove_dups, list_elem_of_fmap. exists q.
    split; [|done]. unfold listed_category, dict_get. by rewrite Hcat. }
  assert (¬ category_matches "unknown" q) as Hno.
  { intros H. by apply Hm in H. }
  split; [by apply Hl|]. split; [done|]. split; [|split; [done|]].
  - intros r H. by apply get_quote_by_category_filtered in H as [_ H].
  - intros r. split; [apply Hl; left|].
    apply get_quote_by_category_none. intros (q' & Hq' & H).
    apply list_elem_of_singleton in Hq'. by subst.
Qed.

Lemma listed_unknown_not_matched_witness :
  get_all_categories [q_motivational; q_no_category]
    = ["motivational"; "unknown"] ∧
  get_quote_by_category 0 [q_motivational; q_no_category] "unknown"
    ≠ Ok (Some q_no_category).
Proof.
  split; [vm_compute; reflexivity|].
  apply (listed_unknown_not_matched [q_motivational; q_no_category]
           q_no_category).
  - apply list_elem_of_In. simpl. right. left. reflexivity.
  - vm_compute. reflexivity.
Defined.

(** ** Formatting *)

Lemma falsy_has_key (q : quote) k v : q !! k = Some v → falsy (Some q) = false.
Proof.
  intros Hk. simpl. apply bool_decide_eq_false. intros H0.
  apply map_size_empty_iff in H0. subst q. by rewrite lookup_empty in Hk.
Qed.

(** A record that is not empty gets the default of each absent field. *)
Lemma format_quote_defaults (q : quote) :
  size q ≠ 0 →
  format_quote (Some q) =
    Str.nl +:+ Str.dquote +:+ dict_get q "text" "Unknown quote" +:+ Str.dquote
    +:+ Str.nl +:+ Str.nl +:+
    "— " +:+ dict_get q "author" "Unknown" +:+ Str.nl +:+
    "[" +:+ Str.capitalize (dict_get q "category" "unknown") +:+ "]" +:+ Str.nl.
Proof.
  intros Hq. unfold format_quote. simpl. by rewrite bool_decide_eq_false_2.
Qed.

(** C2. On the empty record [format_quote] takes the branch of the absent
    quote: the guard [not quote] holds of an empty dict, so the defaults
    are not substituted and none of the three expected pieces is in the
    answer. *)
Theorem format_quote_empty_record :
  format_quote (Some ∅) = "No quote available." ∧
  Str.contains "Unknown quote" (format_quote (Some ∅)) = false ∧
  Str.contains "Unknown" (format_quote (Some ∅)) = false ∧
  Str.contains "[Unknown]" (format_quote (Some ∅)) = false.
Proof. vm_compute. repeat split. Qed.

(** C3, as stated, fails: the category is capitalised by
    [str.capitalize], which puts the letters after the first in lower case,
    and the category line follows the author line with no blank line in
    between. *)
Lemma format_quote_layout_counterexample :
  format_quote (Some q_scifi) ≠ spec_layout "T" "A" "sciFi" ∧
  Str.contains "[SciFi]" (format_quote (Some q_scifi)) = false ∧
  Str.contains ("— A" +:+ Str.nl +:+ "[Scifi]") (format_quote (Some q_scifi))
    = true.
Proof. vm_compute. split; [discriminate|split; reflexivity]. Qed.

(** C3, amended. For a record with text [t], author [a] and category [c],
    [format_quote] returns: a line break, [t] in double quotes, a line
    break, an empty line, the dash, a space and [a], a line break, then [c]
    in brackets with its first letter in upper case and the others in lower
    case, and a last line break. *)
Theorem format_quote_layout (q : quote) (t a c : string) :
  q !! "text" = Some t → q !! "author" = Some a → q !! "category" = Some c →
  format_quote (Some q) =
    Str.nl +:+ Str.dquote +:+ t +:+ Str.dquote +:+ Str.nl +:+
    Str.nl +:+
    "— " +:+ a +:+ Str.nl +:+
    "[" +:+ Str.capitalize c +:+ "]" +:+ Str.nl ∧
  (∀ x c', c = String x c' →
     Str.capitalize c = String (Str.upper_char x) (Str.lower c')).
Proof.
  intros Ht Ha Hc. split; [|by intros x c' ->].
  unfold format_quote. rewrite (falsy_has_key q _ _ Ht). simpl.
  unfold dict_get. by rewrite Ht, Ha, Hc.
Qed.

Lemma format_quote_layout_witness :
  format_quote (Some q_scifi) =
    Str.nl +:+ Str.dquote +:+ "T" +:+ Str.dquote +:+ Str.nl +:+
    Str.nl +:+
    "— " +:+ "A" +:+ Str.nl +:+
    "[" +:+ "Scifi" +:+ "]" +:+ Str.nl.
Proof.
  apply (format_quote_layout q_scifi "T" "A" "sciFi");
    vm_compute; reflexivity.
Defined.

(** ** Loading *)

Section load.
Variable project_root : string.
Variable fs : filesystem.
Variable quotes_file_arg : option string.

Let path : string := quotes_path project_root quotes_file_arg.
Let self0 : loading := init_self project_root quotes_file_arg.

Ltac run_load H :=
  unfold load_quotes, load_quotes_try, pbind, pgets, plift, open; simpl;
  fold path; rewrite H; simpl.

(** The outcomes of [load_quotes] on the instance as [__init__] has set it,
    with the state it leaves. *)
Lemma load_quotes_missing :
  fs !! path = None →
  load_quotes fs self0 =
    (Raise (FileNotFoundError
       ("Quotes file not found: " +:+ path +:+
        "Please ensure the data/quotes.json file exists.")), self0).
Proof. intros H. by run_load H. Qed.

Lemma load_quotes_refused why :
  fs !! path = Some (Refused why) →
  load_quotes fs self0 = (Raise (refusal_error path why), self0).
Proof. intros H. run_load H. by destruct why. Qed.

Lemma load_quotes_malformed msg doc pos :
  fs !! path = Some (Malformed msg doc pos) →
  load_quotes fs self0 =
    (Raise (JSONDecodeError ("Invalid JSON in quotes file: " +:+ msg)
              doc pos), self0).
Proof. intros H. by run_load H. Qed.

Lemma load_quotes_not_utf8 msg :
  fs !! path = Some (NotUtf8 msg) →
  load_quotes fs self0 = (Raise (UnicodeDecodeError msg), self0).
Proof. intros H. by run_load H. Qed.


Lemma load_quotes_mapping d :
  fs !! path = Some (Decodes (PDict d)) →
  load_quotes fs self0 =
    let q := default (PList []) (d !! "quotes") in
    (Ok tt, (mkQuoteGenerator path q,
             if truthy q then []
             else ["Warning: No quotes found in the file."])).
Proof.
  intros H. run_load H. unfold set_quotes, pmodify, print. simpl.
  by destruct (truthy (default (PList []) (d !! "quotes"))).
Qed.

Lemma init_missing :
  fs !! path = None →
  init project_root fs quotes_file_arg =
    Raise (FileNotFoundError
      ("Quotes file not found: " +:+ path +:+
       "Please ensure the data/quotes.json file exists.")).
Proof.
  intros H. unfold init. fold self0. by rewrite (load_quotes_missing H).
Qed.

Lemma init_refused why :
  fs !! path = Some (Refused why) →
  init project_root fs quotes_file_arg = Raise (refusal_error path why).
Proof.
  intros H. unfold init. fold self0. by rewrite (load_quotes_refused _ H).
Qed.

Lemma init_malformed msg doc pos :
  fs !! path = Some (Malformed msg doc pos) →
  init project_root fs quotes_file_arg =
    Raise (JSONDecodeError ("Invalid JSON in quotes file: " +:+ msg) doc pos).
Proof.
  intros H. unfold init. fold self0.
  by rewrite (load_quotes_malformed _ _ _ H).
Qed.

Lemma init_not_utf8 msg :
  fs !! path = Some (NotUtf8 msg) →
  init project_root fs quotes_file_arg = Raise (UnicodeDecodeError msg).
Proof.
  intros H. unfold init. fold self0. by rewrite (load_quotes_not_utf8 _ H).
Qed.

Lemma init_mapping d :
  fs !! path = Some (Decodes (PDict d)) →
  init project_root fs quotes_file_arg =
    let q := default (PList []) (d !! "quotes") in
    Ok (mkQuoteGenerator path q,
        if truthy q then []
        else ["Warning: No quotes found in the file."]).
Proof.
  intros H. unfold init. fold self0. by rewrite (load_quotes_mapping _ H).
Qed.




End load.

Lemma init_expected_shape project_root fs arg d (qs : list quote) :
  fs !! quotes_path project_root arg = Some (Decodes (PDict d)) →
  d !! "quotes" = Some (of_quotes qs) →
  init project_root fs arg =
    Ok (mkQuoteGenerator (quotes_path project_root arg) (of_quotes qs),
        if decide (qs = []) then ["Warning: No quotes found in the file."]
        else []).
Proof.
  intros Hf Hq. rewrite (init_mapping _ _ _ d Hf), Hq. simpl.
  by destruct qs.
Qed.




(** C8. A document that is a mapping without the quotes key, or with an
    empty sequence under it, loads: the instance is built with the empty
    collection, one warning line is printed and nothing is raised. *)
Theorem load_without_records (project_root : string) (fs : filesystem)
    (arg : option string) (d : gmap string pyval) :
  fs !! quotes_path project_root arg = Some (Decodes (PDict d)) →
  d !! "quotes" = None ∨ d !! "quotes" = Some (of_quotes []) →
  init project_root fs arg =
    Ok (mkQuoteGenerator (quotes_path project_root arg) (of_quotes []),
        ["Warning: No quotes found in the file."]).
Proof.
  intros Hf Hq. rewrite (init_mapping _ _ _ d Hf).
  by destruct Hq as [-> | ->].
Qed.

Lemma load_without_records_witness :
  init "/app" {[ "quotes.json" := Decodes (PDict {[ "version" := PInt 1 ]}) ]}
       (Some "quotes.json")
    = Ok (mkQuoteGenerator "quotes.json" (PList []),
          ["Warning: No quotes found in the file."]).
Proof.
  apply (load_without_records "/app" _ (Some "quotes.json")
           {[ "version" := PInt 1 ]}).
  - vm_compute. reflexivity.
  - left. vm_compute. reflexivity.
Defined.

(** ** The collection after construction *)

Lemma random_choice_fmap {A B} (f : A → B) r (seq : list A) :
  random_choice r (f <$> seq) = rmap f (random_choice r seq).
Proof.
  unfold random_choice. rewrite length_fmap.
  destruct (decide (length seq = 0)); [done|].
  rewrite list_lookup_fmap.
  by destruct (seq !! randbelow r (length seq)).
Qed.

Lemma filter_category_run category quotes σ :
  Heap.filter_category category quotes σ =
    (Ok (filter (λ l, category_matches category (Heap.objects σ l)) quotes),
     σ).
Proof.
  induction quotes as [|l quotes IH]; [done|].
  simpl. unfold pbind at 1. simpl. unfold pbind at 1. rewrite IH. simpl.
  rewrite filter_cons. unfold category_matches, pret.
  by repeat case_decide.
Qed.

Lemma categories_of_run quotes σ :
  Heap.categories_of quotes σ =
    (Ok ((λ l, dict_get (Heap.objects σ l) "category" "unknown") <$> quotes),
     σ).
Proof.
  induction quotes as [|l quotes IH]; [done|].
  simpl. unfold pbind at 1. simpl. unfold pbind at 1. by rewrite IH.
Qed.

Lemma filter_records category σ :
  Heap.objects σ <$>
    filter (λ l, category_matches category (Heap.objects σ l))
      (Heap.self_quotes σ)
  = filter (category_matches category) (Heap.records σ).
Proof.
  unfold Heap.records. induction (Heap.self_quotes σ) as [|l qs IH]; [done|].
  rewrite fmap_cons, !filter_cons. repeat case_decide; try done.
  by rewrite fmap_cons, IH.
Qed.

(** Each method leaves the state as it found it, and answers as the
    function of the same name does on the records the state holds. *)
Lemma heap_get_random_quote r σ :
  (Heap.get_random_quote r σ).2 = σ ∧
  rmap (fmap (Heap.objects σ)) (Heap.get_random_quote r σ).1
    = get_random_quote r (Heap.records σ).
Proof.
  unfold Heap.get_random_quote, get_random_quote, Heap.records, pbind,
    Heap.attr_quotes, pgets, plift.
  destruct (Heap.self_quotes σ) as [|l qs] eqn:E; [done|].
  rewrite E, fmap_cons, <- (fmap_cons (Heap.objects σ)), random_choice_fmap.
  by destruct (random_choice r (l :: qs)).
Qed.

Lemma heap_get_quote_by_category r category σ :
  (Heap.get_quote_by_category r category σ).2 = σ ∧
  rmap (fmap (Heap.objects σ)) (Heap.get_quote_by_category r category σ).1
    = get_quote_by_category r (Heap.records σ) category.
Proof.
  unfold Heap.get_quote_by_category, get_quote_by_category, pbind,
    Heap.attr_quotes, pgets, plift.
  rewrite filter_category_run, <- filter_records.
  destruct (filter _ (Heap.self_quotes σ)) as [|l qs] eqn:E; [done|].
  rewrite fmap_cons, <- (fmap_cons (Heap.objects σ)), random_choice_fmap.
  by destruct (random_choice r (l :: qs)).
Qed.

Lemma heap_get_all_categories σ :
  Heap.get_all_categories σ = (Ok (get_all_categories (Heap.records σ)), σ).
Proof.
  unfold Heap.get_all_categories, get_all_categories, Heap.records, pbind,
    Heap.attr_quotes, pgets, pret.
  by rewrite categories_of_run, <- list_fmap_compose.
Qed.

Lemma heap_format_quote quote σ :
  Heap.format_quote quote σ =
    (Ok (format_quote (Heap.objects σ <$> quote)), σ).
Proof.
  destruct quote as [l|]; [|done].
  unfold Heap.format_quote, format_quote, pbind, Heap.len_at, Heap.get_at,
    pgets, pret. simpl.
  destruct (decide (size (Heap.objects σ l) = 0)) as [H0|H0].
  - by rewrite bool_decide_eq_true_2.
  - by rewrite bool_decide_eq_false_2.
Qed.

Lemma heap_exec_state (c : Heap.call) (σ : Heap.state) :
  (Heap.exec c σ).2 = σ.
Proof.
  destruct c as [r|r category| |quote]; unfold Heap.exec, pbind.
  - destruct (heap_get_random_quote r σ) as [H _].
    destruct (Heap.get_random_quote r σ) as [[q|e] σ']; by simpl in *.
  - destruct (heap_get_quote_by_category r category σ) as [H _].
    destruct (Heap.get_quote_by_category r category σ) as [[q|e] σ'];
      by simpl in *.
  - by rewrite heap_get_all_categories.
  - by rewrite heap_format_quote.
Qed.

Lemma heap_run_cons (c : Heap.call) (cs : list Heap.call) (σ : Heap.state) :
  Heap.run (c :: cs) σ =
    ((Heap.exec c σ).1 :: (Heap.run cs σ).1, (Heap.run cs σ).2).
Proof.
  simpl. pose proof (heap_exec_state c σ) as H.
  destruct (Heap.exec c σ) as [a σ']. simpl in H. subst σ'.
  by destruct (Heap.run cs σ).
Qed.

(** The state is not kept by the type of the methods: a write through a
    reference that a query has returned changes the collection. *)
Example write_through_reference :
  let σ := Heap.mkState (λ _, q_motivational) [0] in
  (Heap.get_random_quote 0 σ).1 = Ok (Some 0) ∧
  Heap.records (Heap.setitem_at 0 "category" "funny" σ).2 ≠ Heap.records σ.
Proof. split; [reflexivity|]. vm_compute. discriminate. Qed.

(** C9. Whatever sequence of the four operations is run on an instance,
    on records handed out by earlier calls or on any others, the state it
    leaves is the one it started from: the attribute [self.quotes] and
    every stored record are unchanged; hence each call answers as it does
    on the starting state. *)
Theorem queries_leave_collection (calls : list Heap.call)
    (σ : Heap.state) :
  (Heap.run calls σ).2 = σ ∧
  Heap.records (Heap.run calls σ).2 = Heap.records σ ∧
  (Heap.run calls σ).1 = (λ c, (Heap.exec c σ).1) <$> calls.
Proof.
  induction calls as [|c calls IH]; [done|].
  destruct IH as (IH1 & IH2 & IH3).
  rewrite heap_run_cons. simpl. by rewrite IH1, IH3.
Qed.

(** * Further properties of the queries *)

Lemma listed_elem (quotes : list quote) (c : string) :
  c ∈ get_all_categories quotes ↔
  ∃ q, q ∈ quotes ∧ listed_category q = c.
Proof.
  rewrite get_all_categories_Permutation, elem_of_remove_dups,
    list_elem_of_fmap.
  split; [intros (q & -> & Hin)|intros (q & Hin & <-)]; eauto.
Qed.

Lemma listed_has_match (quotes : list quote) (c : string) :
  c ∈ get_all_categories quotes →
  c ≠ "unknown" ∨ Forall (λ q : quote, is_Some (q !! "category")) quotes →
  ∃ q, q ∈ quotes ∧ q !! "category" = Some c.
Proof.
  intros (q & Hin & Hq)%listed_elem Hc. exists q. split; [done|].
  unfold listed_category, dict_get in Hq.
  destruct (q !! "category") as [c'|] eqn:E; simpl in Hq; [by subst|].
  destruct Hc as [Hc|Hall]; [by subst|].
  rewrite Forall_forall in Hall. apply Hall in Hin.
  rewrite E in Hin. by destruct Hin.
Qed.

Lemma has_category_matches (q : quote) (c : string) :
  q !! "category" = Some c → category_matches c q.
Proof. intros H. unfold category_matches, dict_get. by rewrite H. Qed.

Lemma listed_answered (r : nat) (quotes : list quote) (c : string) :
  c ∈ get_all_categories quotes →
  c ≠ "unknown" ∨ Forall (λ q : quote, is_Some (q !! "category")) quotes →
  ∃ q, get_quote_by_category r quotes c = Ok (Some q) ∧ q ∈ quotes ∧
       category_matches c q.
Proof.
  intros Hl Hc. destruct (listed_has_match quotes c Hl Hc) as (q0 & Hin & Hq0).
  destruct (get_quote_by_category_some r quotes c) as [q Hq].
  { exists q0. split; [done|]. by apply has_category_matches. }
  exists q. split; [done|]. by apply get_quote_by_category_filtered in Hq.
Qed.

(** X1. Every category that [get_all_categories] lists, other than unknown,
    is answered by [get_quote_by_category] with a record of the collection
    of that category up to case, whatever the draw; so is unknown when
    every record has the category field. *)
Theorem listed_category_answered (r : nat) (quotes : list quote)
    (c : string) :
  c ∈ get_all_categories quotes →
  c ≠ "unknown" ∨ Forall (λ q : quote, is_Some (q !! "category")) quotes →
  ∃ q, get_quote_by_category r quotes c = Ok (Some q) ∧ q ∈ quotes ∧
       Str.eq_nocase (dict_get q "category" EmptyString) c.
Proof.
  intros Hl Hc.
  destruct (listed_has_match quotes c Hl Hc) as (q0 & Hin & Hq0).
  destruct (get_quote_by_category_some r quotes c) as [q Hq].
  { exists q0. split; [done|]. by apply has_category_matches. }
  exists q. split; [done|].
  by apply get_quote_by_category_filtered in Hq.
Qed.

Lemma listed_category_answered_witness :
  ∃ q, get_quote_by_category 5 [q_motivational; q_no_category] "motivational"
         = Ok (Some q) ∧
       q ∈ [q_motivational; q_no_category] ∧
       Str.eq_nocase (dict_get q "category" EmptyString) "motivational".
Proof.
  apply (listed_category_answered 5 [q_motivational; q_no_category]
           "motivational").
  - vm_compute. left.
  - left. discriminate.
Defined.

(** X2. The case of the query does not matter: two queries equal up to
    case get the same answer from [get_quote_by_category] on the same
    collection and draw. *)
Theorem query_case_irrelevant (r : nat) (quotes : list quote)
    (c c' : string) :
  Str.eq_nocase c c' →
  get_quote_by_category r quotes c = get_quote_by_category r quotes c'.
Proof.
  intros Hc. unfold get_quote_by_category.
  rewrite (list_filter_iff (category_matches c) (category_matches c')); [done|].
  intros q. unfold category_matches. unfold Str.eq_nocase in Hc.
  by rewrite Hc.
Qed.

Lemma query_case_irrelevant_witness :
  get_quote_by_category 2 [q_AB; q_CD] "PHILOSOPHICAL"
    = get_quote_by_category 2 [q_AB; q_CD] "Philosophical".
Proof.
  apply (query_case_irrelevant 2 [q_AB; q_CD]). vm_compute. reflexivity.
Defined.

(** X3. The listing depends on the set of categories only: two collections
    with the same category values (unknown for an absent field), in any
    order and any number of times, get the same list from
    [get_all_categories]. *)
Theorem get_all_categories_same_set (qs1 qs2 : list quote) :
  (∀ c, (∃ q, q ∈ qs1 ∧ dict_get q "category" "unknown" = c) ↔
        (∃ q, q ∈ qs2 ∧ dict_get q "category" "unknown" = c)) →
  get_all_categories qs1 = get_all_categories qs2.
Proof.
  intros H. unfold get_all_categories. do 2 f_equal.
  apply set_eq. intros c. rewrite !elem_of_list_to_set, !list_elem_of_fmap.
  split; intros (q & -> & Hin).
  - destruct (proj1 (H _) (ex_intro _ q (conj Hin eq_refl))) as (q' & ? & ?).
    eauto.
  - destruct (proj2 (H _) (ex_intro _ q (conj Hin eq_refl))) as (q' & ? & ?).
    eauto.
Qed.

Lemma get_all_categories_same_set_witness :
  get_all_categories [q_CD; q_AB; q_CD] = get_all_categories [q_AB; q_CD].
Proof.
  apply get_all_categories_same_set. intros c.
  split; intros (q & Hin & Hq); exists q; (split; [|done]);
    apply list_elem_of_In in Hin; apply list_elem_of_In; simpl in *; tauto.
Defined.

(** X4. [get_all_categories] returns the empty list exactly on the empty
    collection. *)
Theorem get_all_categories_nil_iff (quotes : list quote) :
  get_all_categories quotes = [] ↔ quotes = [].
Proof.
  split; [|by intros ->].
  destruct quotes as [|q l]; [done|]. intros H.
  assert (listed_category q ∈ get_all_categories (q :: l)) as Hin.
  { apply listed_elem. exists q. split; [left|done]. }
  rewrite H in Hin. by apply not_elem_of_nil in Hin.
Qed.

(** X5. [get_random_quote] returns None only on the empty collection. *)
Theorem get_random_quote_none_iff (r : nat) (quotes : list quote) :
  get_random_quote r quotes = Ok None ↔ quotes = [].
Proof.
  split; [|by intros ->].
  destruct quotes as [|q l]; [done|]. intros H.
  destruct (random_choice_elem r (q :: l)) as (y & Hy & _); [done|].
  unfold get_random_quote in H. rewrite Hy in H. discriminate.
Qed.

(** X6. Every record that matches the query is returned by
    [get_quote_by_category] for some draw. *)
Theorem matching_quote_reachable (quotes : list quote) (c : string)
    (q : quote) :
  q ∈ quotes → Str.eq_nocase (dict_get q "category" EmptyString) c →
  ∃ r, get_quote_by_category r quotes c = Ok (Some q).
Proof.
  intros Hin Hm.
  assert (q ∈ filter (category_matches c) quotes) as Hf
    by (apply list_elem_of_filter; done).
  destruct (random_choice_reach _ _ Hf) as [r Hr]. exists r.
  unfold get_quote_by_category.
  destruct (filter (category_matches c) quotes) eqn:E.
  { by apply not_elem_of_nil in Hf. }
  by rewrite Hr.
Qed.

Lemma matching_quote_reachable_witness :
  ∃ r, get_quote_by_category r [q_AB; q_motivational; q_CD] "MOTIVATIONAL"
         = Ok (Some q_motivational).
Proof.
  apply matching_quote_reachable.
  - apply list_elem_of_In. simpl. tauto.
  - vm_compute. reflexivity.
Defined.

(** * Further properties of the formatter *)

Lemma append_cons (a : ascii) (s t : string) :
  String a s +:+ t = String a (s +:+ t).
Proof. reflexivity. Qed.

Lemma append_assoc (s t u : string) : (s +:+ t) +:+ u = s +:+ t +:+ u.
Proof.
  induction s as [|a s IH]; [done|]. rewrite !append_cons. by f_equal.
Qed.

Lemma prefix_append (n t : string) : String.prefix n (n +:+ t) = true.
Proof.
  induction n as [|a n IH]; [by destruct t|].
  rewrite append_cons. simpl. destruct (ascii_dec a a); [done|congruence].
Qed.

Lemma contains_prefix (n h : string) :
  String.prefix n h = true → Str.contains n h = true.
Proof. intros H. destruct h; cbn [Str.contains]; by rewrite H. Qed.

Lemma contains_here (n t : string) : Str.contains n (n +:+ t) = true.
Proof. apply contains_prefix, prefix_append. Qed.

Lemma contains_skip (n s t : string) :
  Str.contains n t = true → Str.contains n (s +:+ t) = true.
Proof.
  intros H. induction s as [|a s IH]; [done|].
  rewrite append_cons. simpl. rewrite IH. apply orb_true_r.
Qed.

Lemma contains_inside (n s t : string) :
  Str.contains n (s +:+ n +:+ t) = true.
Proof. apply contains_skip, contains_here. Qed.

Lemma falsy_iff (quote : option quote) :
  falsy quote = true ↔ quote = None ∨ quote = Some ∅.
Proof.
  destruct quote as [q|]; simpl; [|by split; [left|]].
  rewrite bool_decide_eq_true, map_size_empty_iff. split.
  - intros ->. by right.
  - intros [H|H]; [done|]. by injection H.
Qed.

Lemma format_quote_fixed_line (quote : option quote) :
  format_quote quote = "No quote available." ↔ falsy quote = true.
Proof.
  unfold format_quote. destruct (falsy quote); [done|]. split; [|done].
  unfold Str.nl. rewrite append_cons. discriminate.
Qed.

(** X7. [format_quote] answers with the fixed line No quote available
    exactly for None and for the empty record; every other record is
    formatted with the layout, the default standing for each absent
    field. *)
Theorem format_quote_no_quote_iff (quote : option quote) :
  (format_quote quote = "No quote available." ↔
   quote = None ∨ quote = Some ∅) ∧
  (∀ q, quote = Some q → q ≠ ∅ →
     format_quote quote =
       Str.nl +:+ Str.dquote +:+ dict_get q "text" "Unknown quote" +:+
       Str.dquote +:+ Str.nl +:+
       Str.nl +:+
       "— " +:+ dict_get q "author" "Unknown" +:+ Str.nl +:+
       "[" +:+ Str.capitalize (dict_get q "category" "unknown") +:+ "]" +:+
       Str.nl).
Proof.
  split.
  - rewrite <- falsy_iff. apply format_quote_fixed_line.
  - intros q -> Hq. apply format_quote_defaults.
    by rewrite map_size_empty_iff.
Qed.

(** X8. For a record that is not empty, the formatted text contains the
    text of the record, its author, and its category capitalised between
    brackets, each replaced by its default when the field is absent. *)
Theorem format_quote_contains_fields (q : quote) :
  size q ≠ 0 →
  Str.contains (dict_get q "text" "Unknown quote") (format_quote (Some q))
    = true ∧
  Str.contains (dict_get q "author" "Unknown") (format_quote (Some q))
    = true ∧
  Str.contains ("[" +:+ Str.capitalize (dict_get q "category" "unknown")
                +:+ "]")
    (format_quote (Some q)) = true.
Proof.
  intros Hq. rewrite (format_quote_defaults q Hq).
  split; [|split].
  - do 2 apply contains_skip. apply contains_here.
  - do 7 apply contains_skip. apply contains_here.
  - do 9 apply contains_skip.
    set (c := Str.capitalize _).
    rewrite <- (append_assoc c "]" Str.nl).
    rewrite <- (append_assoc "[" (c +:+ "]") Str.nl). apply contains_here.
Qed.

Lemma format_quote_contains_fields_witness :
  Str.contains "Test quote 4" (format_quote (Some q_no_category)) = true ∧
  Str.contains "Test Author 4" (format_quote (Some q_no_category)) = true ∧
  Str.contains "[Unknown]" (format_quote (Some q_no_category)) = true.
Proof.
  apply (format_quote_contains_fields q_no_category). vm_compute. discriminate.
Defined.

(** * Further properties of loading *)

Lemma record_of_quote (q : quote) : Cli.record_of (of_quote q) = Some q.
Proof.
  unfold Cli.record_of, of_quote. rewrite decide_True.
  - f_equal. apply map_eq. intros k.
    rewrite lookup_omap, lookup_fmap. by destruct (q !! k).
  - apply map_Forall_fmap. intros k s _. simpl. eauto.
Qed.

Lemma records_of_quotes (qs : list quote) :
  Cli.records (of_quotes qs) = Some qs.
Proof.
  unfold Cli.records, of_quotes. apply mapM_fmap_Some. apply record_of_quote.
Qed.

(** X9. Loading a document whose quotes key holds a sequence of records
    builds the instance with exactly these records, in their order; the
    warning line is printed exactly when the sequence is empty. *)
Theorem load_records (project_root : string) (fs : filesystem)
    (arg : option string) (d : gmap string pyval) (qs : list quote) :
  fs !! quotes_path project_root arg = Some (Decodes (PDict d)) →
  d !! "quotes" = Some (of_quotes qs) →
  ∃ out,
    init project_root fs arg =
      Ok (mkQuoteGenerator (quotes_path project_root arg) (of_quotes qs), out) ∧
    Cli.records (of_quotes qs) = Some qs ∧
    (out = ["Warning: No quotes found in the file."] ↔ qs = []) ∧
    (out = [] ↔ qs ≠ []).
Proof.
  intros Hf Hq. rewrite (init_expected_shape _ _ _ _ _ Hf Hq).
  eexists. split; [done|]. split; [apply records_of_quotes|].
  destruct (decide (qs = [])) as [->|Hne]; split; split; try done.
Qed.

Lemma load_records_witness :
  ∃ out,
    init "/app"
      {[ "q.json" := Decodes (PDict
           {[ "quotes" := of_quotes [q_motivational; q_philosophical] ]}) ]}
      (Some "q.json")
    = Ok (mkQuoteGenerator "q.json"
            (of_quotes [q_motivational; q_philosophical]), out) ∧
    out = [].
Proof.
  destruct (load_records "/app"
    {[ "q.json" := Decodes (PDict
         {[ "quotes" := of_quotes [q_motivational; q_philosophical] ]}) ]}
    (Some "q.json")
    {[ "quotes" := of_quotes [q_motivational; q_philosophical] ]}
    [q_motivational; q_philosophical]) as (out & H1 & _ & _ & H4).
  - vm_compute. reflexivity.
  - vm_compute. reflexivity.
  - exists out. split; [exact H1|]. apply H4. discriminate.
Defined.

(** X10. The error raised for a file that does not decode keeps the
    document and the position of the decoder's error and puts a fixed
    prefix before its message; the error raised for a missing file names
    the path, followed without a space by the hint. *)
Theorem load_error_messages (project_root : string) (fs : filesystem)
    (arg : option string) :
  (∀ msg doc pos,
     fs !! quotes_path project_root arg = Some (Malformed msg doc pos) →
     init project_root fs arg =
       Raise (JSONDecodeError ("Invalid JSON in quotes file: " +:+ msg)
                doc pos)) ∧
  (fs !! quotes_path project_root arg = None →
   init project_root fs arg =
     Raise (FileNotFoundError
       ("Quotes file not found: " +:+ quotes_path project_root arg +:+
        "Please ensure the data/quotes.json file exists."))).
Proof.
  split.
  - intros msg doc pos H. by apply init_malformed.
  - intros H. by apply init_missing.
Qed.

Lemma load_error_messages_witness :
  init "/app" {[ "q.json" := Malformed "Expecting value" "nope" 0 ]}
       (Some "q.json")
  = Raise (JSONDecodeError "Invalid JSON in quotes file: Expecting value"
             "nope" 0).
Proof.
  apply (load_error_messages "/app"
           {[ "q.json" := Malformed "Expecting value" "nope" 0 ]}
           (Some "q.json")).
  vm_compute. reflexivity.
Defined.

(** * Properties of the command line *)

Lemma get_random_quote_total r (quotes : list quote) :
  ∃ o, get_random_quote r quotes = Ok o.
Proof. apply guarded_choice_total. Qed.

Lemma get_quote_by_category_total r (quotes : list quote) c :
  ∃ o, get_quote_by_category r quotes c = Ok o.
Proof. apply guarded_choice_total. Qed.

Lemma list_getitem_lookup {A} (l : list A) (i : Z) (x : A) :
  (0 ≤ i)%Z → l !! Z.to_nat i = Some x → Cli.list_getitem l i = Ok x.
Proof.
  intros Hi Hx. unfold Cli.list_getitem.
  destruct (i <? 0)%Z eqn:E; [apply Z.ltb_lt in E; lia|].
  rewrite E. by rewrite Hx.
Qed.

Lemma select_category_number (w : Cli.world) (categories : list string)
    (cat_input : string) (k : Z) (c : string) :
  Cli.py_int w cat_input = Some k → (1 ≤ k)%Z →
  categories !! Z.to_nat (k - 1) = Some c →
  Cli.select_category w categories cat_input = Ok (Some c, []).
Proof.
  intros Hint Hk Hc. unfold Cli.select_category. rewrite Hint.
  pose proof (lookup_lt_Some _ _ _ Hc) as Hlt.
  rewrite andb_true_intro; [|split; [apply Z.leb_le|apply Z.leb_le]; lia].
  rewrite (list_getitem_lookup _ _ c); [done|lia|done].
Qed.

Lemma select_category_total (w : Cli.world) (categories : list string)
    (cat_input : string) :
  ∃ sel said, Cli.select_category w categories cat_input = Ok (sel, said).
Proof.
  unfold Cli.select_category.
  destruct (Cli.py_int w cat_input) as [k|]; [|eauto].
  destruct ((1 <=? k)%Z && (k <=? Z.of_nat (length categories))%Z) eqn:E;
    [|eauto].
  apply andb_true_iff in E as [E1%Z.leb_le E2%Z.leb_le].
  destruct (lookup_lt_is_Some_2 categories (Z.to_nat (k - 1))) as [c Hc];
    [lia|].
  rewrite (list_getitem_lookup _ _ c); [simpl; eauto|lia|done].
Qed.

Lemma on_choice_sound w quotes n choice :
  Cli.sound (Cli.on_choice w quotes n choice).1.2.
Proof.
  unfold Cli.on_choice. repeat case_decide; try done.
  destruct (get_random_quote_total (Cli.rnd w n) quotes) as [o ->]. done.
Qed.

Lemma on_category_sound w quotes n categories cat_input :
  Cli.sound (Cli.on_category w quotes n categories cat_input).1.2.
Proof.
  unfold Cli.on_category.
  destruct (select_category_total w categories cat_input)
    as (sel & said & ->).
  destruct sel as [c|]; [|done]. case_decide; [done|].
  destruct (get_quote_by_category_total (Cli.rnd w n) quotes c) as [o ->].
  done.
Qed.

Lemma step_sound w quotes p n k :
  k ≠ Cli.Garbled → Cli.sound p → Cli.sound (Cli.step w quotes p n k).1.2.
Proof.
  intros Hk Hp. destruct p, k; simpl; try done.
  - apply on_choice_sound.
  - apply on_category_sound.
Qed.

Lemma sound_settled p : Cli.sound p → Cli.settled p.
Proof. by destruct p. Qed.

Lemma step_settled w quotes p n k :
  Cli.settled p → Cli.settled (Cli.step w quotes p n k).1.2.
Proof.
  intros Hp. destruct k as [l| |].
  - destruct p as [| | | |e]; try (by apply sound_settled, step_sound).
    done.
  - destruct p as [| | | |e]; try (by apply sound_settled, step_sound).
    done.
  - by destruct p.
Qed.

Lemma run_sound w quotes keys : ∀ p n,
  Cli.Garbled ∉ keys → Cli.sound p →
  Cli.sound (Cli.run w quotes p n keys).2.
Proof.
  induction keys as [|k keys IH]; intros p n Hg Hp; [done|].
  apply not_elem_of_cons in Hg as [Hk Hg].
  simpl. pose proof (step_sound w quotes p n k (not_eq_sym Hk) Hp) as Hs.
  destruct (Cli.step w quotes p n k) as [[ev p'] n']. simpl in Hs.
  specialize (IH p' n' Hg Hs).
  by destruct (Cli.run w quotes p' n' keys) as [ev' p''].
Qed.

Lemma run_settled w quotes keys : ∀ p n,
  Cli.settled p → Cli.settled (Cli.run w quotes p n keys).2.
Proof.
  induction keys as [|k keys IH]; intros p n Hp; [done|].
  simpl. pose proof (step_settled w quotes p n k Hp) as Hs.
  destruct (Cli.step w quotes p n k) as [[ev p'] n']. simpl in Hs.
  specialize (IH p' n' Hs).
  by destruct (Cli.run w quotes p' n' keys) as [ev' p''].
Qed.

Lemma run_returned w quotes keys : ∀ n code,
  (Cli.run w quotes (Cli.Returned code) n keys).2 = Cli.Returned code.
Proof.
  induction keys as [|k keys IH]; intros n code; [done|].
  simpl. specialize (IH n code).
  by destruct (Cli.run w quotes (Cli.Returned code) n keys).
Qed.

Lemma run_interrupt w quotes keys : ∀ p n,
  Cli.Garbled ∉ keys → Cli.sound p → Cli.Interrupt ∈ keys →
  (Cli.run w quotes p n keys).2 = Cli.Returned 0.
Proof.
  induction keys as [|k keys IH]; intros p n Hg Hp Hin.
  { by apply not_elem_of_nil in Hin. }
  apply not_elem_of_cons in Hg as [Hk Hg].
  simpl. pose proof (step_sound w quotes p n k (not_eq_sym Hk) Hp) as Hs.
  apply elem_of_cons in Hin as [<-|Hin].
  - assert (∃ ev n', Cli.step w quotes p n Cli.Interrupt
                     = (ev, Cli.Returned 0, n')) as (ev & n' & E).
    { destruct p; simpl in *; try done; try (by do 2 eexists).
      subst. by do 2 eexists. }
    rewrite E. pose proof (run_returned w quotes keys n' 0) as Hr.
    by destruct (Cli.run w quotes (Cli.Returned 0) n' keys).
  - destruct (Cli.step w quotes p n k) as [[ev p'] n']. simpl in Hs.
    specialize (IH p' n' Hg Hs Hin).
    by destruct (Cli.run w quotes p' n' keys) as [ev' p''].
Qed.

Lemma session_outcome w quotes keys :
  (ends_quietly (Cli.session w quotes keys).2 ∨
   ∃ msg, (Cli.session w quotes keys).2
            = Cli.Uncaught (UnicodeDecodeError msg)) ∧
  (Cli.Garbled ∉ keys →
   ends_quietly (Cli.session w quotes keys).2 ∧
   (Cli.Interrupt ∈ keys → (Cli.session w quotes keys).2 = Cli.Exit 0)).
Proof.
  unfold Cli.session, ends_quietly.
  pose proof (run_settled w quotes keys Cli.AtChoice 0 I) as Ht.
  pose proof (λ Hg, run_sound w quotes keys Cli.AtChoice 0 Hg I) as Hs.
  pose proof (λ Hg, run_interrupt w quotes keys Cli.AtChoice 0 Hg I) as Hi.
  destruct (Cli.run w quotes Cli.AtChoice 0 keys) as [ev p]. simpl in *.
  split.
  - destruct p as [| | |code|e]; simpl in *; subst; auto.
    destruct e; try done. eauto.
  - intros Hg. specialize (Hs Hg). specialize (Hi Hg). split.
    + destruct p; simpl in *; subst; auto. done.
    + intros Hin. by rewrite (Hi Hin).
Qed.

Lemma script_loaded w fs keys generator out qs :
  init (Cli.project_root w) fs None = Ok (generator, out) →
  Cli.records (quotes generator) = Some qs →
  Cli.script w fs keys =
    ((Cli.Print <$> out) ++ (Cli.session w qs keys).1,
     (Cli.session w qs keys).2).
Proof.
  intros Hi Hr. unfold Cli.script. rewrite Hi, Hr.
  by destruct (Cli.session w qs keys).
Qed.


Lemma deliver_all w events o : ∀ n,
  (∀ n s, Cli.stdout_write w n s = None) →
  Cli.deliver w n events o = (events, o).
Proof.
  induction events as [|[s|s|c] events IH]; intros n Hw; [done|..]; simpl;
    rewrite ?Hw, IH; done.
Qed.

Lemma deliver_outcome w events o : ∀ n,
  (Cli.deliver w n events o).2 = o ∨
  ∃ f, (Cli.deliver w n events o).2 = Cli.Uncaught (Cli.write_error f).
Proof.
  induction events as [|[s|s|c] events IH]; intros n; [by left|..]; simpl.
  - destruct (Cli.stdout_write w n s) as [f|]; [right; eauto|].
    specialize (IH (S n)). by destruct (Cli.deliver w (S n) events o).
  - destruct (Cli.stdout_write w n s) as [f|]; [right; eauto|].
    specialize (IH (S n)). by destruct (Cli.deliver w (S n) events o).
  - specialize (IH n). by destruct (Cli.deliver w n events o).
Qed.

Lemma write_error_not_exit f code :
  Cli.Uncaught (Cli.write_error f) ≠ Cli.Exit code.
Proof. done. Qed.


(** X12. When [open] finds no file at the default path, or the decoder
    raises its error on the file, [main] writes one error line and returns
    1 without clearing the screen or reading a key; for a file that does
    not decode the line is fixed and carries nothing of the decoder's
    message.  If the write of the line fails, or if the path is refused by
    [open] or the file is not UTF-8, nothing is printed and the exception
    leaves [main]. *)
Theorem main_load_failure (w : Cli.world) (fs : filesystem)
    (keys : list Cli.key) :
  (fs !! default_quotes_file (Cli.project_root w) = None →
   Cli.main w fs keys =
     match Cli.stdout_write w 0
             ("Error: Quotes file not found: " +:+
              default_quotes_file (Cli.project_root w) +:+
              "Please ensure the data/quotes.json file exists.") with
     | None =>
         ([Cli.Print ("Error: Quotes file not found: " +:+
                      default_quotes_file (Cli.project_root w) +:+
                      "Please ensure the data/quotes.json file exists.")],
          Cli.Exit 1)
     | Some f => ([], Cli.Uncaught (Cli.write_error f))
     end) ∧
  (∀ msg doc pos,
     fs !! default_quotes_file (Cli.project_root w)
       = Some (Malformed msg doc pos) →
     Cli.main w fs keys =
       match Cli.stdout_write w 0
               "Error: Invalid JSON format in quotes file." with
       | None =>
           ([Cli.Print "Error: Invalid JSON format in quotes file."],
            Cli.Exit 1)
       | Some f => ([], Cli.Uncaught (Cli.write_error f))
       end) ∧
  (∀ why,
     fs !! default_quotes_file (Cli.project_root w) = Some (Refused why) →
     Cli.main w fs keys =
       ([], Cli.Uncaught
              (refusal_error (default_quotes_file (Cli.project_root w))
                 why))) ∧
  (∀ msg,
     fs !! default_quotes_file (Cli.project_root w) = Some (NotUtf8 msg) →
     Cli.main w fs keys = ([], Cli.Uncaught (UnicodeDecodeError msg))).
Proof.
  split; [|split; [|split]].
  - intros H. unfold Cli.main, Cli.script.
    rewrite (init_missing (Cli.project_root w) fs None H). simpl.
    by destruct (Cli.stdout_write w 0 _).
  - intros msg doc pos H. unfold Cli.main, Cli.script.
    rewrite (init_malformed (Cli.project_root w) fs None _ _ _ H). simpl.
    by destruct (Cli.stdout_write w 0 _).
  - intros why H. unfold Cli.main, Cli.script.
    rewrite (init_refused (Cli.project_root w) fs None _ H).
    by destruct why.
  - intros msg H. unfold Cli.main, Cli.script.
    by rewrite (init_not_utf8 (Cli.project_root w) fs None _ H).
Qed.

Lemma main_load_failure_witness :
  Cli.main Cli.posix ∅ [Cli.Line "1"] =
    ([Cli.Print ("Error: Quotes file not found: /app/data/quotes.json" +:+
                 "Please ensure the data/quotes.json file exists.")],
     Cli.Exit 1).
Proof.
  apply (main_load_failure Cli.posix ∅ [Cli.Line "1"]). apply lookup_empty.
Defined.

(** X13. On a file whose document is a mapping with a sequence of records
    under quotes, or without the key, [main] ends in one of these ways
    only: it returns 0; it runs out of keys at an [input] (the EOFError
    leaves it); an [input] cannot decode its bytes; a write to the
    standard output fails.  No query, index or conversion of [main] raises.
    When every write succeeds and every key is a line or an interrupt, it
    returns 0 or runs out of keys, and it returns 0 if the user interrupts
    at some point. *)
Theorem main_session_ends (w : Cli.world) (fs : filesystem)
    (keys : list Cli.key) (d : gmap string pyval) (qs : list quote) :
  fs !! default_quotes_file (Cli.project_root w) = Some (Decodes (PDict d)) →
  default (PList []) (d !! "quotes") = of_quotes qs →
  ((Cli.main w fs keys).2 = Cli.Exit 0 ∨
   (Cli.main w fs keys).2 = Cli.EndOfInput ∨
   (∃ msg, (Cli.main w fs keys).2 = Cli.Uncaught (UnicodeDecodeError msg)) ∨
   (∃ f, (Cli.main w fs keys).2 = Cli.Uncaught (Cli.write_error f))) ∧
  ((∀ n s, Cli.stdout_write w n s = None) → Cli.Garbled ∉ keys →
   ((Cli.main w fs keys).2 = Cli.Exit 0 ∨
    (Cli.main w fs keys).2 = Cli.EndOfInput) ∧
   (Cli.Interrupt ∈ keys → (Cli.main w fs keys).2 = Cli.Exit 0)).
Proof.
  intros Hf Hq.
  pose proof (init_mapping (Cli.project_root w) fs None d Hf) as Hi.
  simpl in Hi. rewrite Hq in Hi.
  unfold Cli.main.
  rewrite (script_loaded w fs keys _ _ qs Hi); [|apply records_of_quotes].
  destruct (session_outcome w qs keys) as [Hany Hgood].
  split.
  - destruct (deliver_outcome w
                ((Cli.Print <$> (if truthy (of_quotes qs) then []
                   else ["Warning: No quotes found in the file."])) ++
                 (Cli.session w qs keys).1)
                (Cli.session w qs keys).2 0) as [->|[f ->]]; [|eauto 10].
    destruct Hany as [[Ho|Ho]|[msg Ho]]; rewrite Ho; eauto.
  - intros Hw Hg. rewrite (deliver_all _ _ _ 0 Hw). simpl.
    by apply Hgood.
Qed.

Lemma main_session_ends_witness :
  (Cli.main Cli.posix
     {[ "/app/data/quotes.json" := Decodes (PDict
          {[ "quotes" := of_quotes [q_motivational; q_no_category] ]}) ]}
     [Cli.Line "1"; Cli.Interrupt; Cli.Line "2"]).2 = Cli.Exit 0.
Proof.
  apply (main_session_ends Cli.posix _ _
           {[ "quotes" := of_quotes [q_motivational; q_no_category] ]}
           [q_motivational; q_no_category]).
  - vm_compute. reflexivity.
  - vm_compute. reflexivity.
  - intros n s. reflexivity.
  - intros Hin. apply list_elem_of_In in Hin. simpl in Hin.
    destruct Hin as [H|[H|[H|[]]]]; discriminate.
  - apply list_elem_of_In. simpl. tauto.
Defined.

(** With an output that has ASCII only, choice 1 on a collection that is
    not empty ends [main]: the dash of the layout cannot be written. *)
Example ascii_output_breaks_choice_1 :
  (Cli.main Cli.posix_ascii
     {[ "/app/data/quotes.json" := Decodes (PDict
          {[ "quotes" := of_quotes [q_motivational] ]}) ]}
     [Cli.Line "1"; Cli.Line "4"]).2
  = Cli.Uncaught (UnicodeEncodeError "codec can't encode character").
Proof. vm_compute. reflexivity. Qed.

(** X14. Choice 1 clears the screen and prints one formatted quote, then
    waits for Enter: the quote is a record of the collection, or None,
    printed as No quote available, when the collection is empty. *)
Theorem choice_random_prints_member (w : Cli.world) (quotes : list quote)
    (n : nat) (l : string) :
  Cli.strip l = "1" →
  ∃ quote,
    Cli.step w quotes Cli.AtChoice n (Cli.Line l) =
      (Cli.clear_screen w ++ [Cli.Print (format_quote quote)] ++
       Cli.ask_continue, Cli.AtContinue, S n) ∧
    (quotes = [] → quote = None ∧
                   format_quote quote = "No quote available.") ∧
    (quotes ≠ [] → ∃ q, quote = Some q ∧ q ∈ quotes).
Proof.
  intros Hl. simpl. rewrite Hl. unfold Cli.on_choice.
  rewrite decide_True by done.
  destruct (decide (quotes = [])) as [->|Hne].
  - exists None. split; [done|]. split; [done|]. done.
  - destruct (guarded_choice_cons (Cli.rnd w n) quotes Hne) as (q & Hq & Hin).
    change (get_random_quote (Cli.rnd w n) quotes = Ok (Some q)) in Hq.
    rewrite Hq. exists (Some q). split; [done|]. split; [done|]. eauto.
Qed.

Lemma choice_random_prints_member_witness :
  ∃ quote,
    Cli.step Cli.posix [q_AB; q_CD] Cli.AtChoice 3 (Cli.Line " 1 ") =
      (Cli.clear_screen Cli.posix ++ [Cli.Print (format_quote quote)] ++
       Cli.ask_continue, Cli.AtContinue, 4) ∧
    ∃ q, quote = Some q ∧ q ∈ [q_AB; q_CD].
Proof.
  destruct (choice_random_prints_member Cli.posix [q_AB; q_CD] 3 " 1 ")
    as (quote & H1 & _ & H3).
  - vm_compute. reflexivity.
  - exists quote. split; [exact H1|]. apply H3. discriminate.
Defined.

Lemma matches_nonempty_has_key (q : quote) (c : string) :
  category_matches c q → c ≠ EmptyString → falsy (Some q) = false.
Proof.
  intros Hm Hc. unfold category_matches, dict_get in Hm.
  destruct (q !! "category") as [c'|] eqn:E; [by eapply falsy_has_key|].
  simpl in Hm. symmetry in Hm. destruct Hc. by apply lower_empty_iff.
Qed.

(** X15. At the category prompt, a number between 1 and the length of the
    list selects the category listed at that position: when that category
    is not the empty string, and is not unknown or every record has the
    category field, the screen is cleared and a formatted record of the
    collection, of that category up to case, is printed. *)
Theorem select_by_number_prints_quote (w : Cli.world) (quotes : list quote)
    (n : nat) (l : string) (k : Z) (c : string) :
  Cli.py_int w (Cli.strip l) = Some k → (1 ≤ k)%Z →
  get_all_categories quotes !! Z.to_nat (k - 1) = Some c →
  c ≠ EmptyString →
  c ≠ "unknown" ∨ Forall (λ q : quote, is_Some (q !! "category")) quotes →
  ∃ q, q ∈ quotes ∧
       Str.eq_nocase (dict_get q "category" EmptyString) c ∧
       format_quote (Some q) ≠ "No quote available." ∧
       Cli.step w quotes (Cli.AtCategory (get_all_categories quotes)) n
         (Cli.Line l) =
         (Cli.clear_screen w ++ [Cli.Print (format_quote (Some q))] ++
          Cli.ask_continue, Cli.AtContinue, S n).
Proof.
  intros Hint Hk Hc Hne Hun.
  assert (c ∈ get_all_categories quotes) as Hl
    by (by eapply list_elem_of_lookup_2).
  destruct (listed_answered (Cli.rnd w n) quotes c Hl Hun)
    as (q & Hq & Hin & Hm).
  pose proof (matches_nonempty_has_key q c Hm Hne) as Hf.
  exists q. split; [done|]. split; [done|]. split.
  - intros H. apply format_quote_fixed_line in H. congruence.
  - simpl. unfold Cli.on_category.
    rewrite (select_category_number w _ _ k c Hint Hk Hc).
    rewrite decide_False by done. rewrite Hq, Hf. done.
Qed.

Lemma select_by_number_prints_quote_witness :
  ∃ q, q ∈ [q_AB; q_CD] ∧
       Cli.step Cli.posix [q_AB; q_CD]
         (Cli.AtCategory (get_all_categories [q_AB; q_CD])) 0
         (Cli.Line "2") =
         (Cli.clear_screen Cli.posix ++ [Cli.Print (format_quote (Some q))] ++
          Cli.ask_continue, Cli.AtContinue, 1).
Proof.
  destruct (select_by_number_prints_quote Cli.posix [q_AB; q_CD] 0 "2" 2
              "philosophical") as (q & H1 & _ & _ & H4).
  - vm_compute. reflexivity.
  - lia.
  - vm_compute. reflexivity.
  - discriminate.
  - left. discriminate.
  - exists q. split; [exact H1|exact H4].
Defined.

(** X16. When a record has no category field and no record has the
    category unknown up to case, the list shown by choice 2 has unknown at
    some position, and choosing that position, or typing unknown, prints
    that no quotes were found for the category unknown. *)
Theorem select_unknown_not_found (quotes : list quote) (q0 : quote) :
  q0 ∈ quotes → q0 !! "category" = None →
  (∀ q, q ∈ quotes →
        ¬ Str.eq_nocase (dict_get q "category" EmptyString) "unknown") →
  ∃ i, get_all_categories quotes !! i = Some "unknown" ∧
    ∀ (w : Cli.world) (n : nat) (l : string),
      Cli.py_int w (Cli.strip l) = Some (Z.of_nat (S i)) ∨
      (Cli.py_int w (Cli.strip l) = None ∧ Cli.strip l = "unknown") →
      Cli.step w quotes (Cli.AtCategory (get_all_categories quotes)) n
        (Cli.Line l) =
        (Cli.clear_screen w ++
         [Cli.Print "No quotes found for category: unknown"] ++
         Cli.ask_continue, Cli.AtContinue, S n).
Proof.
  intros Hin Hcat Hno.
  assert ("unknown" ∈ get_all_categories quotes) as Hl.
  { apply listed_elem. exists q0. split; [done|].
    unfold listed_category, dict_get. by rewrite Hcat. }
  apply list_elem_of_lookup_1 in Hl as [i Hi]. exists i. split; [done|].
  intros w n l Hsel.
  assert (Cli.select_category w (get_all_categories quotes) (Cli.strip l)
          = Ok (Some "unknown", [])) as Hs.
  { destruct Hsel as [Hint|[Hint Hname]].
    - apply (select_category_number w _ _ (Z.of_nat (S i))); [done|lia|].
      by replace (Z.to_nat (Z.of_nat (S i) - 1)) with i by lia.
    - unfold Cli.select_category. by rewrite Hint, Hname. }
  assert (get_quote_by_category (Cli.rnd w n) quotes "unknown" = Ok None)
    as Hq.
  { apply get_quote_by_category_none. intros (q & Hq1 & Hq2).
    by apply (Hno q). }
  simpl. unfold Cli.on_category. rewrite Hs.
  rewrite decide_False by done. by rewrite Hq.
Qed.

Lemma select_unknown_not_found_witness :
  ∃ i, get_all_categories [q_motivational; q_no_category] !! i
         = Some "unknown" ∧
    Cli.step Cli.posix [q_motivational; q_no_category]
      (Cli.AtCategory (get_all_categories [q_motivational; q_no_category]))
      0 (Cli.Line "unknown") =
      (Cli.clear_screen Cli.posix ++
       [Cli.Print "No quotes found for category: unknown"] ++
       Cli.ask_continue, Cli.AtContinue, 1).
Proof.
  destruct (select_unknown_not_found [q_motivational; q_no_category]
              q_no_category) as (i & Hi & H).
  - apply list_elem_of_In. simpl. tauto.
  - vm_compute. reflexivity.
  - intros q Hq. apply list_elem_of_In in Hq. simpl in Hq.
    destruct Hq as [<-|[<-|[]]]; vm_compute; discriminate.
  - exists i. split; [exact Hi|]. apply H. right.
    split; vm_compute; reflexivity.
Defined.

(** X17. At the category prompt, an input that [int] reads as a number
    below 1 or above the length of the list prints the range message and
    returns to the wait for Enter: no category is selected, even if the
    input is the name of a listed category, no query is made and the
    screen is not cleared. *)
Theorem number_out_of_range (w : Cli.world) (quotes : list quote)
    (categories : list string) (n : nat) (l : string) (k : Z) :
  Cli.py_int w (Cli.strip l) = Some k →
  (k < 1 ∨ Z.of_nat (length categories) < k)%Z →
  Cli.step w quotes (Cli.AtCategory categories) n (Cli.Line l) =
    ([Cli.Print ("Invalid number. Please enter a number between 1 and " +:+
                 pretty (length categories) +:+ ".")] ++
     Cli.ask_continue, Cli.AtContinue, n).
Proof.
  intros Hint Hk. simpl. unfold Cli.on_category, Cli.select_category.
  rewrite Hint.
  replace ((1 <=? k)%Z && (k <=? Z.of_nat (length categories))%Z)
    with false; [done|].
  symmetry. apply andb_false_iff.
  destruct Hk; [left; apply Z.leb_gt|right; apply Z.leb_gt]; lia.
Qed.

Lemma number_out_of_range_witness :
  Cli.step Cli.posix [q_AB] (Cli.AtCategory ["2024"; "motivational"]) 0
    (Cli.Line "2024") =
    ([Cli.Print "Invalid number. Please enter a number between 1 and 2."] ++
     Cli.ask_continue, Cli.AtContinue, 0).
Proof.
  apply (number_out_of_range Cli.posix [q_AB] ["2024"; "motivational"] 0
           "2024" 2024).
  - vm_compute. reflexivity.
  - right. simpl. lia.
Defined.

(** X18. At the category prompt, a line of white space only, which [int]
    refuses, selects nothing: nothing is printed and the program waits for
    Enter. *)
Theorem blank_category_input (w : Cli.world) (quotes : list quote)
    (categories : list string) (n : nat) (l : string) :
  Cli.strip l = EmptyString → Cli.py_int w EmptyString = None →
  Cli.step w quotes (Cli.AtCategory categories) n (Cli.Line l) =
    (Cli.ask_continue, Cli.AtContinue, n).
Proof.
  intros Hl Hint. simpl. unfold Cli.on_category, Cli.select_category.
  rewrite Hl, Hint. by rewrite decide_True.
Qed.

Lemma blank_category_input_witness :
  Cli.step Cli.posix [q_AB] (Cli.AtCategory ["motivational"]) 0
    (Cli.Line "   ") = (Cli.ask_continue, Cli.AtContinue, 0).
Proof.
  apply (blank_category_input Cli.posix [q_AB] ["motivational"] 0 "   ");
    vm_compute; reflexivity.
Defined.

Lemma category_count_cons (q : quote) (qs : list quote) (c : string) :
  Cli.category_count (q :: qs) c =
    (if decide (q !! "category" = Some c) then 1 else 0) +
    Cli.category_count qs c.
Proof.
  unfold Cli.category_count. rewrite filter_cons. by case_decide.
Qed.

Lemma sum_list_with_split {A} (f g h : A → nat) (l : list A) :
  (∀ x, f x = g x + h x) →
  sum_list_with f l = sum_list_with g l + sum_list_with h l.
Proof.
  intros H. induction l as [|x l IH]; [done|]. simpl. rewrite H, IH. lia.
Qed.

Lemma sum_list_with_zero {A} (f : A → nat) (l : list A) :
  (∀ x, x ∈ l → f x = 0) → sum_list_with f l = 0.
Proof.
  induction l as [|x l IH]; [done|]. intros H. simpl.
  rewrite (H x) by left. rewrite IH; [done|].
  intros y Hy. apply H. by right.
Qed.

Lemma sum_indicator (x : option string) (cats : list string) :
  NoDup cats →
  sum_list_with (λ c, if decide (x = Some c) then 1 else 0) cats =
    match x with
    | Some c0 => if decide (c0 ∈ cats) then 1 else 0
    | None => 0
    end.
Proof.
  destruct x as [c0|].
  - induction 1 as [|c cats Hc Hnd IH]; [done|]. simpl. rewrite IH.
    destruct (decide (c0 = c)) as [->|Hne].
    + rewrite decide_True by done. rewrite (decide_True (P := c ∈ c :: cats))
        by left. by rewrite decide_False.
    + rewrite decide_False by congruence.
      destruct (decide (c0 ∈ cats)) as [Hin|Hin].
      * rewrite decide_True; [done|by right].
      * rewrite decide_False; [done|].
        intros [?|?]%elem_of_cons; done.
  - intros _. by apply sum_list_with_zero.
Qed.

Lemma category_count_sum_over (cats : list string) (qs : list quote) :
  NoDup cats →
  (∀ q c, q ∈ qs → q !! "category" = Some c → c ∈ cats) →
  sum_list_with (Cli.category_count qs) cats =
    length (filter (λ q : quote, is_Some (q !! "category")) qs).
Proof.
  intros Hnd. induction qs as [|q qs IH]; intros Hall.
  { by apply sum_list_with_zero. }
  rewrite (sum_list_with_split _
             (λ c, if decide (q !! "category" = Some c) then 1 else 0)
             (Cli.category_count qs));
    [|apply category_count_cons].
  rewrite IH by (intros q' c Hq'; apply Hall; by right).
  rewrite sum_indicator by done. rewrite filter_cons.
  destruct (q !! "category") as [c0|] eqn:E.
  - rewrite decide_True by (apply (Hall q c0); [left|done]).
    by rewrite decide_True by eauto.
  - rewrite decide_False; [done|]. by intros [? ?].
Qed.

Lemma get_all_categories_NoDup (quotes : list quote) :
  NoDup (get_all_categories quotes).
Proof. rewrite get_all_categories_Permutation. apply NoDup_remove_dups. Qed.

(** X19. The counts that choice 3 shows beside the listed categories add
    up to the number of records that have a category field: a record
    without the field is counted under no category, so the total is the
    size of the collection only when every record has the field. *)
Theorem category_counts_sum (quotes : list quote) :
  sum_list_with (Cli.category_count quotes) (get_all_categories quotes) =
    length (filter (λ q : quote, is_Some (q !! "category")) quotes) ∧
  sum_list_with (Cli.category_count quotes) (get_all_categories quotes)
    ≤ length quotes ∧
  (sum_list_with (Cli.category_count quotes) (get_all_categories quotes)
     = length quotes ↔
   Forall (λ q : quote, is_Some (q !! "category")) quotes).
Proof.
  assert (sum_list_with (Cli.category_count quotes)
            (get_all_categories quotes) =
          length (filter (λ q : quote, is_Some (q !! "category")) quotes))
    as ->.
  { apply category_count_sum_over; [apply get_all_categories_NoDup|].
    intros q c Hin Hq. apply listed_elem. exists q. split; [done|].
    unfold listed_category, dict_get. by rewrite Hq. }
  split; [done|]. split; [apply length_filter|].
  split.
  - intros Hlen. apply Forall_forall. intros q Hin.
    destruct (decide (is_Some (q !! "category"))) as [|Hno]; [done|].
    pose proof (length_filter_lt
                  (λ q : quote, is_Some (q !! "category")) quotes q Hin Hno).
    lia.
  - intros Hall. induction Hall as [|q qs Hq Hall IH]; [done|].
    rewrite filter_cons, decide_True by done. simpl. by rewrite IH.
Qed.

(** X20. A listed category other than unknown is shown by choice 3 with a
    count of at least one; unknown is shown with the count 0 when no
    record has the category unknown itself, that is when it is listed for
    records without the field only. *)
Theorem category_count_listed (quotes : list quote) :
  (∀ c, c ∈ get_all_categories quotes → c ≠ "unknown" →
        1 ≤ Cli.category_count quotes c) ∧
  ((∀ q, q ∈ quotes → q !! "category" ≠ Some "unknown") →
   Cli.category_count quotes "unknown" = 0).
Proof.
  split.
  - intros c Hl Hc.
    destruct (listed_has_match quotes c Hl (or_introl Hc)) as (q & Hin & Hq).
    unfold Cli.category_count.
    assert (q ∈ filter (λ q : quote, q !! "category" = Some c) quotes) as Hf
      by (by apply list_elem_of_filter).
    destruct (filter _ quotes); [by apply not_elem_of_nil in Hf|simpl; lia].
  - intros Hno. unfold Cli.category_count.
    destruct (filter _ quotes) as [|q l] eqn:E; [done|].
    assert (q ∈ filter (λ q : quote, q !! "category" = Some "unknown") quotes)
      as Hf by (rewrite E; left).
    apply list_elem_of_filter in Hf as [Hq Hin]. by destruct (Hno q Hin).
Qed.

Lemma category_count_listed_witness :
  Cli.category_count [q_motivational; q_no_category] "unknown" = 0 ∧
  "unknown" ∈ get_all_categories [q_motivational; q_no_category].
Proof.
  split.
  - apply (category_count_listed [q_motivational; q_no_category]).
    intros q Hq. apply list_elem_of_In in Hq. simpl in Hq.
    destruct Hq as [<-|[<-|[]]]; vm_compute; discriminate.
  - vm_compute. right. left.
Defined.
